(** * The execution-box dispatch loop of the Alpha 21264 emulator

    A shallow embedding of [src/comutl/AXP_Execute_Box.c]: the pipeline
    compatibility table [pipeCond], the queue scan and the worker loop
    [AXP_Execution_Box] that the Ebox pipelines (U0, U1, L0, L1) and the
    Fbox pipelines (multiply, other) each run on a thread of their own.

    The worker is modelled as a program in a small state monad.  The state
    holds the memory the worker shares with the other threads, and a history
    of everything the worker did (locks, waits, queue operations, external
    calls, writes), each event paired with the memory in which it was
    performed.  The other threads are a parameter [env]: they get a turn
    wherever the worker may block or leaves its own code. *)

From stdpp Require Import base decidable option list gmap.
From Stdlib Require Import ZArith Lia.

Open Scope Z_scope.
Open Scope nat_scope.

(** ** Enumerations *)

(** Modelled from the spec: the enumeration [AXP_PIPELINE] is declared in a
    header that is not among the sources.  The constants are the ones the
    source uses; their order is the one of the spec's tag list
    (None, U0, U1, U0U1, L0, L1, L0L1, L0L1U0U1, FMul, FOther), which is
    also the order of the source's [insPipelineStr] and [pipelineStr]
    tables that are indexed by it. *)
Inductive AXP_PIPELINE : Set :=
  | PipelineNone
  | EboxU0
  | EboxU1
  | EboxU0U1
  | EboxL0
  | EboxL1
  | EboxL0L1
  | EboxL0L1U0U1
  | FboxMul
  | FboxOther.

#[global] Instance AXP_PIPELINE_eq_dec : EqDecision AXP_PIPELINE.
Proof. solve_decision. Defined.

#[global] Instance AXP_PIPELINE_inhabited : Inhabited AXP_PIPELINE :=
  populate PipelineNone.

(** The integer value of an enumeration constant, used as an array index. *)
Definition pipeline_index (p : AXP_PIPELINE) : nat :=
  match p with
  | PipelineNone => 0
  | EboxU0 => 1
  | EboxU1 => 2
  | EboxU0U1 => 3
  | EboxL0 => 4
  | EboxL1 => 5
  | EboxL0L1 => 6
  | EboxL0L1U0U1 => 7
  | FboxMul => 8
  | FboxOther => 9
  end.

(** Modelled from the spec: [AXP_INS_STATE] comes from a header that is not
    among the sources; the constants are in the order of the spec's state
    list and of the source's [insStateStr] table. *)
Inductive AXP_INS_STATE : Set :=
  | Retired
  | Queued
  | Executing
  | WaitingRetirement
  | Aborted.

#[global] Instance AXP_INS_STATE_eq_dec : EqDecision AXP_INS_STATE.
Proof. solve_decision. Defined.

(** Modelled from the spec: the exception codes are declared elsewhere; the
    loop only ever writes [FloatingDisabledFault]. *)
Inductive AXP_EXCEPTIONS : Set :=
  | NoException
  | FloatingDisabledFault.

#[global] Instance AXP_EXCEPTIONS_eq_dec : EqDecision AXP_EXCEPTIONS.
Proof. solve_decision. Defined.

(** Modelled from the spec: the lifecycle state of the CPU; the loop only
    ever compares it with [ShuttingDown]. *)
Inductive AXP_CPU_STATE : Set :=
  | Run
  | ShuttingDown.

#[global] Instance AXP_CPU_STATE_eq_dec : EqDecision AXP_CPU_STATE.
Proof. solve_decision. Defined.

(** ** The pipeline compatibility table *)

Definition AXP_PIPE_OPTIONS : nat := 10.

(** [static AXP_PIPELINE pipeCond[AXP_PIPE_OPTIONS][3]], row by row. *)
Definition pipeCond : list (list AXP_PIPELINE) :=
  [ [PipelineNone; PipelineNone; PipelineNone];
    [EboxU0;       EboxU0U1;     EboxL0L1U0U1];
    [EboxU1;       EboxU0U1;     EboxL0L1U0U1];
    [PipelineNone; PipelineNone; PipelineNone];
    [EboxL0;       EboxL0L1;     EboxL0L1U0U1];
    [EboxL1;       EboxL0L1;     EboxL0L1U0U1];
    [PipelineNone; PipelineNone; PipelineNone];
    [PipelineNone; PipelineNone; PipelineNone];
    [FboxMul;      FboxMul;      FboxMul];
    [FboxOther;    FboxOther;    FboxOther] ].

(** [pipeCond[pipeline][j]]. *)
Definition pipeCond_at (pipeline : AXP_PIPELINE) (j : nat) : AXP_PIPELINE :=
  (pipeCond !!! pipeline_index pipeline) !!! j.

(** The test of lines 224-226: the entry's tag differs from all three
    columns of the worker's row. *)
Definition cannot_execute (pipeline tag : AXP_PIPELINE) : bool :=
  bool_decide (tag ≠ pipeCond_at pipeline 0) &&
  bool_decide (tag ≠ pipeCond_at pipeline 1) &&
  bool_decide (tag ≠ pipeCond_at pipeline 2).

(** The compatibility rows as the specification words them. *)
Definition compatibility_row (W : AXP_PIPELINE) : list AXP_PIPELINE :=
  match W with
  | EboxU0 => [EboxU0; EboxU0U1; EboxL0L1U0U1]
  | EboxU1 => [EboxU1; EboxU0U1; EboxL0L1U0U1]
  | EboxL0 => [EboxL0; EboxL0L1; EboxL0L1U0U1]
  | EboxL1 => [EboxL1; EboxL0L1; EboxL0L1U0U1]
  | FboxMul => [FboxMul]
  | FboxOther => [FboxOther]
  | _ => []
  end.

(** ** Memory *)

(** Addresses of queue entries and of instructions. *)
Abbreviation ptr := nat.

(** The two fields of [AXP_INSTRUCTION] the loop reads or writes. *)
Record AXP_INSTRUCTION : Set := mkIns {
  state : AXP_INS_STATE;
  excRegMask : AXP_EXCEPTIONS
}.

#[global] Instance AXP_INSTRUCTION_inhabited : Inhabited AXP_INSTRUCTION :=
  populate (mkIns Retired NoException).

(** [AXP_QUEUE_ENTRY]: the instruction it refers to, the pipeline tag the
    issue stage gave it ([entry->pipeline]) and the claim flag.  The
    linkage ([header.flink]) is the order of [queue] below. *)
Record AXP_QUEUE_ENTRY : Set := mkEntry {
  ins : ptr;
  pipeline_tag : AXP_PIPELINE;
  processing : bool
}.

#[global] Instance AXP_QUEUE_ENTRY_inhabited : Inhabited AXP_QUEUE_ENTRY :=
  populate (mkEntry 0 PipelineNone false).

(** What the worker shares with the other threads: the lifecycle state, the
    floating-point enable bit of [pCtx], the instructions, the queue
    entries, and the counted queue the worker was started on, as the list of
    the entries linked in it, first one at the head. *)
Record AXP_21264_CPU : Type := mkCPU {
  cpuState : AXP_CPU_STATE;
  fpe : Z;
  instructions : gmap ptr AXP_INSTRUCTION;
  entries : gmap ptr AXP_QUEUE_ENTRY;
  queue : list ptr
}.

(** Modelled from the spec: the macro [AXP_CQUEP_EMPTY] is not among the
    sources; the queue is empty when its count is zero, equivalently when no
    entry is linked. *)
Definition AXP_CQUEP_EMPTY (q : list ptr) : bool :=
  bool_decide (q = []).

(** ** The queue scan, lines 174-251

    [entry] runs from [queue->flink] along [flink] until it is the header
    again.  An entry whose tag is not in the worker's row is passed over; so
    is one that is already claimed; the first other one ends the scan. *)
Fixpoint scan (pipeline : AXP_PIPELINE) (mem : gmap ptr AXP_QUEUE_ENTRY)
    (q : list ptr) : option ptr :=
  match q with
  | [] => None
  | entry :: next =>
      if cannot_execute pipeline (pipeline_tag (mem !!! entry))
      then scan pipeline mem next
      else if bool_decide (processing (mem !!! entry) = false)
      then Some entry
      else scan pipeline mem next
  end.

(** ** Writes to the shared memory *)

(** [entry->processing = b]. *)
Definition set_processing (entry : ptr) (b : bool) (c : AXP_21264_CPU)
    : AXP_21264_CPU :=
  let old := entries c !!! entry in
  mkCPU (cpuState c) (fpe c) (instructions c)
        (<[entry := mkEntry (ins old) (pipeline_tag old) b]> (entries c))
        (queue c).

(** [entry->ins->state = st]. *)
Definition set_ins_state (entry : ptr) (st : AXP_INS_STATE)
    (c : AXP_21264_CPU) : AXP_21264_CPU :=
  let i := ins (entries c !!! entry) in
  let old := instructions c !!! i in
  mkCPU (cpuState c) (fpe c)
        (<[i := mkIns st (excRegMask old)]> (instructions c))
        (entries c) (queue c).

(** [entry->ins->excRegMask = x]. *)
Definition set_excRegMask (entry : ptr) (x : AXP_EXCEPTIONS)
    (c : AXP_21264_CPU) : AXP_21264_CPU :=
  let i := ins (entries c !!! entry) in
  let old := instructions c !!! i in
  mkCPU (cpuState c) (fpe c)
        (<[i := mkIns (state old) x]> (instructions c))
        (entries c) (queue c).

(** [entry->ins->state]. *)
Definition ins_state (entry : ptr) (c : AXP_21264_CPU) : AXP_INS_STATE :=
  state (instructions c !!! ins (entries c !!! entry)).

(** [entry->ins->excRegMask]. *)
Definition ins_excRegMask (entry : ptr) (c : AXP_21264_CPU)
    : AXP_EXCEPTIONS :=
  excRegMask (instructions c !!! ins (entries c !!! entry)).

(** Modelled from the spec: [AXP_RemoveCountedQueue] is not among the
    sources; it detaches the entry from its queue (and decrements the
    count, which here is the length of the list).  An entry is linked at
    most once, so dropping it from the list is dropping that one link. *)
Definition remove_counted_queue (entry : ptr) (c : AXP_21264_CPU)
    : AXP_21264_CPU :=
  mkCPU (cpuState c) (fpe c) (instructions c) (entries c)
        (filter (λ e, e ≠ entry) (queue c)).

(** ** What a worker does: events *)

(** The three mutexes the loop takes: its [mutex] parameter, which is the
    mutex of the pipeline's queue, [cpu->robMutex] and
    [cpu->iBoxIPRMutex]. *)
Inductive mutex_id : Set :=
  | PipelineMutex
  | RobMutex
  | IBoxIPRMutex.

#[global] Instance mutex_id_eq_dec : EqDecision mutex_id.
Proof. solve_decision. Defined.

(** A function that hands an entry back to a pool: the global
    [AXP_ReturnIQEntry] the source names, or any other function, known by
    its address (the Fbox passes one of its own as [returnEntry]). *)
Inductive return_fn : Set :=
  | AXP_ReturnIQEntry
  | ReturnFunction (address : nat).

#[global] Instance return_fn_eq_dec : EqDecision return_fn.
Proof. solve_decision. Defined.

(** The trace output of the [AXP_UTL_OPT2] blocks has no events of its
    own: it writes nothing the loop reads.  What it reads of the shared
    memory is, after the claim, the program counter and the opcode of the
    entry in hand and, in the walk of the scan (lines 193-215 and 228-237),
    the tag, the program counter, the opcode and the instruction's state of
    every entry the walk passes: these reads are part of [EvScan], and are
    made with the pipeline mutex held and no other.  [EvReadInsState] is the
    read of line 290 only. *)
Inductive event : Type :=
  | EvLock (m : mutex_id)                      (* pthread_mutex_lock *)
  | EvUnlock (m : mutex_id)                    (* pthread_mutex_unlock *)
  | EvCondWait                                 (* pthread_cond_wait(cond, mutex) *)
  | EvScan                                     (* entry = queue->flink *)
  | EvSetProcessing (entry : ptr) (b : bool)   (* entry->processing = b *)
  | EvReadInsState (entry : ptr) (st : AXP_INS_STATE)
  | EvRemoveCountedQueue (entry : ptr)         (* AXP_RemoveCountedQueue(entry) *)
  | EvRegCheck (entry : ptr) (ready : bool)    (* the call through regCheckEntry *)
  | EvSetInsState (entry : ptr) (st : AXP_INS_STATE)
  | EvSetExcRegMask (entry : ptr) (x : AXP_EXCEPTIONS)
  | EvReadFpe (v : Z)                          (* cpu->pCtx.fpe *)
  | EvDispatcher (entry : ptr)                 (* AXP_Dispatcher(cpu, entry->ins) *)
  | EvReturnEntry (f : return_fn) (entry : ptr).

#[global] Instance event_eq_dec : EqDecision event.
Proof. solve_decision. Defined.

(** The history: each event with the memory it was performed in. *)
Abbreviation history := (list (event * AXP_21264_CPU)).

Definition events (h : history) : list event := h.*1.

(** Whether the worker holds mutex [m] after the events [t]. *)
Definition holds (m : mutex_id) (t : list event) : bool :=
  foldl (λ held ev,
           match ev with
           | EvLock m' => if decide (m' = m) then true else held
           | EvUnlock m' => if decide (m' = m) then false else held
           | _ => held
           end) false t.

(** ** The monad *)

Record run_state : Type := mkRun {
  cpu : AXP_21264_CPU;
  clock : nat;             (* turns given to the other threads so far *)
  trace : history
}.

(** A computation ends with a value, or stops short ([None]) when the fuel
    that bounds the loops is used up; the state reached is kept either
    way. *)
Definition M (A : Type) : Type := run_state → option A * run_state.

#[global] Instance M_ret : MRet M := λ A a s, (Some a, s).

#[global] Instance M_bind : MBind M := λ A B f m s,
  match m s with
  | (Some a, s') => f a s'
  | (None, s') => (None, s')
  end.

Definition out_of_fuel {A} : M A := λ s, (None, s).

Definition get_cpu : M AXP_21264_CPU := λ s, (Some (cpu s), s).

Definition emit (ev : event) : M unit :=
  λ s, (Some tt, mkRun (cpu s) (clock s) (trace s ++ [(ev, cpu s)])).

Definition modify (f : AXP_21264_CPU → AXP_21264_CPU) : M unit :=
  λ s, (Some tt, mkRun (f (cpu s)) (clock s) (trace s)).

Definition is_shutting_down (c : AXP_21264_CPU) : bool :=
  bool_decide (cpuState c = ShuttingDown).

(** ** The worker *)

Section Worker.

(** What the other threads do with the shared memory at their [n]-th
    turn.  They get a turn whenever the worker tests the lifecycle state
    at the top of its loop, asks for a mutex, waits on the condition
    variable, or is inside an external function (whose own effects are
    part of that turn). *)
Variable env : nat → AXP_21264_CPU → AXP_21264_CPU.

(** The parameters of [AXP_Execution_Box].  [cpu] is the shared memory;
    [queue], [cond] and [mutex] are fixed to the one queue of that
    memory, its condition variable and [PipelineMutex]. *)
Variable pipeline : AXP_PIPELINE.
Variable regCheckEntry : AXP_21264_CPU → ptr → bool.
Variable returnEntry : return_fn.

Definition yield : M unit :=
  λ s, (Some tt, mkRun (env (clock s) (cpu s)) (S (clock s)) (trace s)).

Definition pthread_mutex_lock (m : mutex_id) : M unit :=
  yield;; emit (EvLock m).

Definition pthread_mutex_unlock (m : mutex_id) : M unit :=
  emit (EvUnlock m).

(** The wait gives up the mutex, sleeps, and has the mutex again when it
    returns. *)
Definition pthread_cond_wait : M unit :=
  emit EvCondWait;; yield.

Definition AXP_RemoveCountedQueue (entry : ptr) : M unit :=
  emit (EvRemoveCountedQueue entry);; modify (remove_counted_queue entry).

Definition write_processing (entry : ptr) (b : bool) : M unit :=
  emit (EvSetProcessing entry b);; modify (set_processing entry b).

Definition write_ins_state (entry : ptr) (st : AXP_INS_STATE) : M unit :=
  emit (EvSetInsState entry st);; modify (set_ins_state entry st).

Definition write_excRegMask (entry : ptr) (x : AXP_EXCEPTIONS) : M unit :=
  emit (EvSetExcRegMask entry x);; modify (set_excRegMask entry x).

Definition read_ins_state (entry : ptr) : M AXP_INS_STATE :=
  c ← get_cpu;
  emit (EvReadInsState entry (ins_state entry c));;
  mret (ins_state entry c).

Definition read_fpe : M Z :=
  c ← get_cpu;
  emit (EvReadFpe (fpe c));;
  mret (fpe c).

Definition call_regCheckEntry (entry : ptr) : M bool :=
  c ← get_cpu;
  emit (EvRegCheck entry (regCheckEntry c entry));;
  yield;;
  mret (regCheckEntry c entry).

Definition AXP_Dispatcher (entry : ptr) : M unit :=
  emit (EvDispatcher entry);; yield.

Definition call_return (f : return_fn) (entry : ptr) : M unit :=
  emit (EvReturnEntry f entry);; yield.

(** Lines 152-166: the wait for work.  [fuel] bounds the number of
    wake-ups. *)
Fixpoint wait_for_work (fuel : nat) (notMe : bool) : M unit :=
  match fuel with
  | 0 => out_of_fuel
  | S fuel' =>
      c ← get_cpu;
      if (AXP_CQUEP_EMPTY (queue c) && negb (is_shutting_down c)) || notMe
      then pthread_cond_wait;; wait_for_work fuel' false
      else mret ()
  end.

(** Lines 174-251: the scan, and the claim that ends it.  They are one
    step: the other threads have no turn between the first read of the walk
    and the setting of the claim flag, which is what the pipeline mutex
    gives if every thread takes it for what it does to the queue and to a
    claim flag.  (The loop itself does not: lines 300, 301, 313 and 407.) *)
Definition find_entry : M (option ptr) :=
  emit EvScan;;
  c ← get_cpu;
  match scan pipeline (entries c) (queue c) with
  | Some entry => write_processing entry true;; mret (Some entry)
  | None => mret None
  end.

(** Lines 351-358. *)
Definition fp_enabled : M bool :=
  if bool_decide (pipeline = FboxMul) || bool_decide (pipeline = FboxOther)
  then
    pthread_mutex_lock IBoxIPRMutex;;
    v ← read_fpe;
    pthread_mutex_unlock IBoxIPRMutex;;
    mret (bool_decide (v = 1%Z))
  else mret true.

(** Lines 360-402. *)
Definition dispatch_or_fault (fpEnable : bool) (entry : ptr) : M unit :=
  if fpEnable
  then AXP_Dispatcher entry
  else
    pthread_mutex_lock RobMutex;;
    write_excRegMask entry FloatingDisabledFault;;
    write_ins_state entry WaitingRetirement;;
    pthread_mutex_unlock RobMutex.

(** Lines 333-408: the entry is taken off the queue and executed. *)
Definition execute_entry (entry : ptr) : M unit :=
  pthread_mutex_lock PipelineMutex;;
  AXP_RemoveCountedQueue entry;;
  pthread_mutex_unlock PipelineMutex;;
  pthread_mutex_lock RobMutex;;
  write_ins_state entry Executing;;
  pthread_mutex_unlock RobMutex;;
  fpEnable ← fp_enabled;
  dispatch_or_fault fpEnable entry;;
  write_processing entry false;;
  call_return returnEntry entry.

(** Lines 289-408: what is done with a claimed entry, the pipeline mutex
    released. *)
Definition process_entry (entry : ptr) : M unit :=
  pthread_mutex_lock RobMutex;;
  observed ← read_ins_state entry;
  pthread_mutex_unlock RobMutex;;
  if bool_decide (observed = Aborted)
  then
    AXP_RemoveCountedQueue entry;;
    write_processing entry false;;
    call_return AXP_ReturnIQEntry entry
  else
    ready ← call_regCheckEntry entry;
    if bool_decide (ready = false)
    then write_processing entry false
    else execute_entry entry.

(** Lines 172-409: with the mutex held and the wait over, the scan and
    what follows it.  The value is [notMe] as the iteration leaves it.  The
    test of line 172 and the scan read the memory that the last test of the
    wait loop read: the other threads have no turn in between. *)
Definition scan_and_process : M bool :=
  c ← get_cpu;
  if negb (is_shutting_down c)
  then
    found ← find_entry;
    match found with
    | None =>
        pthread_mutex_unlock PipelineMutex;;
        mret true
    | Some entry =>
        pthread_mutex_unlock PipelineMutex;;
        process_entry entry;;
        mret false
    end
  else mret false.

(** Lines 146-409: the body of the outer loop. *)
Definition iteration (fuel : nat) (notMe : bool) : M bool :=
  pthread_mutex_lock PipelineMutex;;
  wait_for_work fuel notMe;;
  scan_and_process.

(** Lines 140-420: the outer loop, and the unlock that ends the
    function.  [fuel] bounds the number of iterations. *)
Fixpoint main_loop (fuel : nat) (notMe : bool) : M unit :=
  match fuel with
  | 0 => out_of_fuel
  | S fuel' =>
      yield;;
      c ← get_cpu;
      if negb (is_shutting_down c)
      then notMe' ← iteration fuel' notMe; main_loop fuel' notMe'
      else pthread_mutex_unlock PipelineMutex
  end.

(** [notMe] starts as [true]. *)
Definition AXP_Execution_Box (fuel : nat) : M unit :=
  main_loop fuel true.

(** The run of a worker started on memory [c0]. *)
Definition run (fuel : nat) (c0 : AXP_21264_CPU) : option unit * run_state :=
  AXP_Execution_Box fuel (mkRun c0 0 []).

End Worker.

(** * Vocabulary of the properties *)

(** The six identities a worker is created with. *)
Definition is_worker (pipeline : AXP_PIPELINE) : bool :=
  match pipeline with
  | EboxU0 | EboxU1 | EboxL0 | EboxL1 | FboxMul | FboxOther => true
  | _ => false
  end.

(** What was added to the history between two states of a run. *)
Definition since (s s' : run_state) : history :=
  drop (length (trace s)) (trace s').

(** The condition of the inner loop, lines 152-154. *)
Definition wait_condition (notMe : bool) (c : AXP_21264_CPU) : bool :=
  (AXP_CQUEP_EMPTY (queue c) && negb (is_shutting_down c)) || notMe.

(** [always P h]: [P] holds of every event of the history [h], given the
    history before it and the memory it was performed in. *)
Definition always (P : history → event → AXP_21264_CPU → Prop) (h : history)
    : Prop :=
  ∀ pre ev c post, h = pre ++ (ev, c) :: post → P pre ev c.

(** A computation only adds to the history. *)
Definition extends {A} (m : M A) : Prop :=
  ∀ s, ∃ h, trace (m s).2 = trace s ++ h.

(** The events of lines 333-342: the entry is dequeued under the
    pipeline mutex, then marked as executing under the ROB mutex. *)
Definition dequeue_events (entry : ptr) : list event :=
  [EvLock PipelineMutex; EvRemoveCountedQueue entry; EvUnlock PipelineMutex;
   EvLock RobMutex; EvSetInsState entry Executing; EvUnlock RobMutex].

(** The events of lines 407-408. *)
Definition release_events (returnEntry : return_fn) (entry : ptr)
    : list event :=
  [EvSetProcessing entry false; EvReturnEntry returnEntry entry].

(** The four events a write of [Executing] for entry [e] follows: the
    removal of [e] under the pipeline mutex, and the taking of the ROB
    mutex. *)
Definition removal_events (e : ptr) : list event :=
  [EvLock PipelineMutex; EvRemoveCountedQueue e; EvUnlock PipelineMutex;
   EvLock RobMutex].

(** Every scan of the queue comes after a wait on the condition
    variable. *)
Definition wait_precedes_scan : history → Prop :=
  always (λ pre ev _, ev = EvScan → EvCondWait ∈ events pre).

(** Every write of [Executing] to the instruction of entry [e] comes right
    after the removal of [e]. *)
Definition removal_precedes_executing (e : ptr) : history → Prop :=
  always (λ pre ev _,
            ev = EvSetInsState e Executing →
            ∃ pre', events pre = pre' ++ removal_events e).

(** Every write of [Executing] to the instruction of entry [e] is done in a
    memory where [e] is not linked in the queue. *)
Definition unlinked_when_executing (e : ptr) : history → Prop :=
  always (λ _ ev c, ev = EvSetInsState e Executing → e ∉ queue c).

(** Both at once, with [U] for what is to hold of the memory the write is
    done in. *)
Definition executing_step (e : ptr) (U : AXP_21264_CPU → Prop)
    : history → Prop :=
  always (λ pre ev c,
            ev = EvSetInsState e Executing →
            U c ∧ ∃ pre', events pre = pre' ++ removal_events e).

(** The claim as the specification states it: between a register check
    that returned false and the next scan there is a wait. *)
Definition waits_before_rescan (t : list event) : Prop :=
  ∀ pre e mid post,
    t = pre ++ EvRegCheck e false :: mid ++ EvScan :: post →
    EvCondWait ∈ mid.

(** What the code does: after a register check that returned false and the
    clearing of the claim flag, once the worker has the pipeline mutex
    again (in memory [c3]), its next event is a wait exactly when the queue
    is empty and the CPU is not shutting down; when the queue is not empty
    and the CPU is not shutting down, the next event is the scan. *)
Definition rescan_rule : history → Prop :=
  always (λ pre ev _,
            ∀ pre' e c1 c2 c3,
              pre = pre' ++ [(EvRegCheck e false, c1);
                             (EvSetProcessing e false, c2);
                             (EvLock PipelineMutex, c3)] →
              (ev = EvCondWait ↔
               AXP_CQUEP_EMPTY (queue c3) && negb (is_shutting_down c3) = true) ∧
              (AXP_CQUEP_EMPTY (queue c3) = false →
               is_shutting_down c3 = false → ev = EvScan)).

(** The history ends with a register stall. *)
Definition ends_with_stall (h : history) : Prop :=
  ∃ pre' e c1 c2,
    h = pre' ++ [(EvRegCheck e false, c1); (EvSetProcessing e false, c2)].

(** The invariant of the outer loop: the rule holds so far; [notMe] is
    false after a stall; and if the worker took the mutex after a stall and
    has done nothing since, the CPU was shutting down. *)
Definition rescan_invariant (notMe : bool) (h : history) : Prop :=
  rescan_rule h ∧
  (ends_with_stall h → notMe = false) ∧
  (∀ pre' e c1 c2 c3,
     h = pre' ++ [(EvRegCheck e false, c1); (EvSetProcessing e false, c2);
                  (EvLock PipelineMutex, c3)] →
     is_shutting_down c3 = true).

(** C2 as a property of a history: every call of
    [AXP_RemoveCountedQueue] is made with the pipeline mutex held. *)
Definition removals_under_mutex : history → Prop :=
  always (λ pre ev _,
            ∀ e, ev = EvRemoveCountedQueue e →
                 holds PipelineMutex (events pre) = true).

(** C9 as a property of a run that has returned: the worker held the
    pipeline mutex when it made the unlock that ends the function. *)
Definition final_unlock_balanced (r : option () * run_state) : Prop :=
  r.1 = Some () →
  ∃ pre, events (trace r.2) = pre ++ [EvUnlock PipelineMutex] ∧
         holds PipelineMutex pre = true.

(** ** Vocabulary of the properties of the scan, the locks and the loop *)

(** An entry the scan passes over: its tag is outside the worker's row, or
    the entry is already claimed. *)
Definition passed_over (pipeline : AXP_PIPELINE)
    (mem : gmap ptr AXP_QUEUE_ENTRY) (e : ptr) : Prop :=
  cannot_execute pipeline (pipeline_tag (mem !!! e)) = true ∨
  processing (mem !!! e) = true.

(** What one event does to the holding of mutex [m]. *)
Definition hold_step (m : mutex_id) (held : bool) (ev : event) : bool :=
  match ev with
  | EvLock m' => if decide (m' = m) then true else held
  | EvUnlock m' => if decide (m' = m) then false else held
  | _ => held
  end.

(** The locks as the loop takes them: what has to be held, or not held, of
    the pipeline mutex [p], the ROB mutex [r] and the IPR mutex [i] when an
    event is performed, [sd] telling whether the CPU is shutting down in the
    memory of the event.  The removal of an entry and the clearing of a
    claim flag are under no rule: the loop does both with and without a
    mutex. *)
Definition lock_ok (ev : event) (p r i sd : bool) : bool :=
  match ev with
  | EvLock PipelineMutex => negb r && negb i
  | EvLock RobMutex => negb p && negb i
  | EvLock IBoxIPRMutex => negb p && negb r
  | EvUnlock PipelineMutex => p || sd
  | EvUnlock RobMutex => r
  | EvUnlock IBoxIPRMutex => i
  | EvScan => p && negb r && negb i
  | EvCondWait | EvSetProcessing _ true => p
  | EvReadInsState _ _ | EvSetInsState _ _ | EvSetExcRegMask _ _ => r
  | EvReadFpe _ => i
  | EvRegCheck _ _ | EvDispatcher _ | EvReturnEntry _ _ =>
      negb p && negb r && negb i
  | EvRemoveCountedQueue _ | EvSetProcessing _ false => true
  end.

(** Every event obeys [lock_ok]. *)
Definition disciplined : history → Prop :=
  always (λ pre ev c,
            lock_ok ev (holds PipelineMutex (events pre))
                       (holds RobMutex (events pre))
                       (holds IBoxIPRMutex (events pre))
                       (is_shutting_down c) = true).

(** When the worker takes a mutex it holds no other one. *)
Definition one_mutex_at_a_time : history → Prop :=
  always (λ pre ev _,
            ∀ m m', ev = EvLock m → m' ≠ m → holds m' (events pre) = false).

(** The calls through the function pointers [regCheckEntry] and
    [returnEntry], and those of [AXP_Dispatcher] and [AXP_ReturnIQEntry]. *)
Definition is_callback (ev : event) : bool :=
  match ev with
  | EvRegCheck _ _ | EvDispatcher _ | EvReturnEntry _ _ => true
  | _ => false
  end.

(** The worker holds no mutex when it calls out. *)
Definition callbacks_hold_no_mutex : history → Prop :=
  always (λ pre ev _,
            is_callback ev = true → ∀ m, holds m (events pre) = false).

(** The mutex an access is made under: the scan, the wait and the claim
    under the pipeline mutex; the read of an instruction's state that
    decides what is done with the claimed entry (line 290) and the writes of
    an instruction's state and exception mask under the ROB mutex; the read
    of [fpe] under the IPR mutex. *)
Definition guard (ev : event) : option mutex_id :=
  match ev with
  | EvScan | EvCondWait | EvSetProcessing _ true => Some PipelineMutex
  | EvReadInsState _ _ | EvSetInsState _ _ | EvSetExcRegMask _ _ =>
      Some RobMutex
  | EvReadFpe _ => Some IBoxIPRMutex
  | _ => None
  end.

(** Every access is made under its mutex; and the scan is made with the
    pipeline mutex and no other, so that what its walk reads of the
    instructions for the trace output (their state, line 213) it reads
    without the ROB mutex. *)
Definition accesses_are_guarded : history → Prop :=
  always (λ pre ev _,
            (∀ m, guard ev = Some m → holds m (events pre) = true) ∧
            (ev = EvScan →
             holds RobMutex (events pre) = false ∧
             holds IBoxIPRMutex (events pre) = false)).

(** The worker releases a mutex that it holds, or else the pipeline mutex
    in a memory in which the CPU is shutting down. *)
Definition unlocks_what_it_holds : history → Prop :=
  always (λ pre ev c,
            ∀ m, ev = EvUnlock m →
                 holds m (events pre) = true ∨
                 m = PipelineMutex ∧ is_shutting_down c = true).

(** The events of lines 174-311 for an entry that goes on to be executed:
    the scan that claims [e], the read of a state [st] of its instruction,
    the register check that returns true. *)
Definition checked_events (e : ptr) (st : AXP_INS_STATE) : list event :=
  [EvScan; EvSetProcessing e true; EvUnlock PipelineMutex;
   EvLock RobMutex; EvReadInsState e st; EvUnlock RobMutex;
   EvRegCheck e true].

(** An event that reads reports what the memory it is performed in
    holds: the state of the instruction, the value of [fpe], the answer of
    the register check. *)
Definition read_of_memory (regCheckEntry : AXP_21264_CPU → ptr → bool)
    (p : event * AXP_21264_CPU) : Prop :=
  match p.1 with
  | EvReadInsState e st => st = ins_state e p.2
  | EvReadFpe v => v = fpe p.2
  | EvRegCheck e ready => ready = regCheckEntry p.2 e
  | _ => True
  end.

(** What comes right before a call of the dispatcher for entry [e]: the
    claim and the checks, the removal and the marking as executing and, for
    a floating-point worker, the read of 1 in [fpe]. *)
Definition dispatch_prelude (pipeline : AXP_PIPELINE) (e : ptr)
    (st : AXP_INS_STATE) : list event :=
  checked_events e st ++
  dequeue_events e ++
  (if bool_decide (pipeline = FboxMul) || bool_decide (pipeline = FboxOther)
   then [EvLock IBoxIPRMutex; EvReadFpe 1%Z; EvUnlock IBoxIPRMutex]
   else []).

(** A call of the dispatcher for [e] comes right after a stretch [h] of the
    history whose events are the prelude, with a state [st] that is not
    [Aborted], and whose reads are of the memories they were made in: the
    instruction of [e] was not aborted in the memory of the read of line
    290, the register check answered true in the memory of its call and,
    for a floating-point worker, [fpe] was 1 in the memory of its read. *)
Definition dispatch_follows_checks (pipeline : AXP_PIPELINE)
    (regCheckEntry : AXP_21264_CPU → ptr → bool) : history → Prop :=
  always (λ pre ev _,
            ∀ e, ev = EvDispatcher e →
                 ∃ pre' h st,
                   pre = pre' ++ h ∧
                   events h = dispatch_prelude pipeline e st ∧
                   st ≠ Aborted ∧
                   Forall (read_of_memory regCheckEntry) h).

(** What comes right before the write of the fault to the instruction of
    entry [e]: the claim and the checks, the removal and the marking as
    executing, the read of a value [v] in [fpe], and the taking of the ROB
    mutex. *)
Definition fault_prelude (e : ptr) (st : AXP_INS_STATE) (v : Z)
    : list event :=
  checked_events e st ++
  dequeue_events e ++
  [EvLock IBoxIPRMutex; EvReadFpe v; EvUnlock IBoxIPRMutex; EvLock RobMutex].

(** What the worker writes to instructions.  To the exception mask: only
    the floating-point disabled fault, only as a floating-point worker, and
    only right after a stretch [h] of the history whose events are the
    prelude, with a state [st] that is not [Aborted] and a value [v] that is
    not 1, and whose reads are of the memories they were made in: [fpe] was
    not 1 in the memory of its read.  To the state: only [Executing], or
    [WaitingRetirement] right after the fault. *)
Definition writes_to_instructions (pipeline : AXP_PIPELINE)
    (regCheckEntry : AXP_21264_CPU → ptr → bool) : history → Prop :=
  always (λ pre ev _,
            (∀ e x, ev = EvSetExcRegMask e x →
                    x = FloatingDisabledFault ∧
                    (pipeline = FboxMul ∨ pipeline = FboxOther) ∧
                    ∃ pre' h st v,
                      pre = pre' ++ h ∧
                      events h = fault_prelude e st v ∧
                      st ≠ Aborted ∧ v ≠ 1%Z ∧
                      Forall (read_of_memory regCheckEntry) h) ∧
            (∀ e st, ev = EvSetInsState e st →
                     st = Executing ∨
                     st = WaitingRetirement ∧
                     ∃ pre', events pre =
                               pre' ++ [EvSetExcRegMask e FloatingDisabledFault])).

(** Where the worker is with the entry it took from the queue: it has
    none; it has claimed [e]; it has removed [e] from the queue; it has
    removed [e] and cleared its claim flag. *)
Inductive entry_phase : Set :=
  | NoEntry
  | Claimed (e : ptr)
  | Dequeued (e : ptr)
  | Released (e : ptr).

Definition phase_step (ph : entry_phase) (ev : event) : entry_phase :=
  match ev with
  | EvSetProcessing e true => Claimed e
  | EvRemoveCountedQueue e => Dequeued e
  | EvSetProcessing e false =>
      match ph with Dequeued _ => Released e | _ => NoEntry end
  | EvReturnEntry _ _ => NoEntry
  | _ => ph
  end.

Definition phase (t : list event) : entry_phase := foldl phase_step NoEntry t.

(** The phase each event is performed in. *)
Definition phase_ok (ev : event) (ph : entry_phase) : Prop :=
  match ev with
  | EvScan | EvCondWait | EvSetProcessing _ true => ph = NoEntry
  | EvReadInsState e _ | EvRegCheck e _ | EvRemoveCountedQueue e =>
      ph = Claimed e
  | EvSetInsState e _ | EvSetExcRegMask e _ | EvDispatcher e => ph = Dequeued e
  | EvReadFpe _ => ∃ e, ph = Dequeued e
  | EvSetProcessing e false => ph = Claimed e ∨ ph = Dequeued e
  | EvReturnEntry _ e => ph = Released e
  | EvLock _ | EvUnlock _ => True
  end.

(** Every event is performed in its phase, and an entry is handed back
    with its claim flag cleared, to [AXP_ReturnIQEntry] or to the
    worker's [returnEntry]. *)
Definition follows_life_cycle (returnEntry : return_fn) : history → Prop :=
  always (λ pre ev c,
            phase_ok ev (phase (events pre)) ∧
            ∀ f e, ev = EvReturnEntry f e →
                   processing (entries c !!! e) = false ∧
                   (f = AXP_ReturnIQEntry ∨ f = returnEntry)).

(** The worker is at the start of its run, or its last scan found
    nothing. *)
Definition found_nothing_or_started (t : list event) : Prop :=
  t = [] ∨ ∃ pre', t = pre' ++ [EvScan; EvUnlock PipelineMutex].

(** The worker waits only in a memory in which the queue is empty and the
    CPU is not shutting down, but for the first wait after the function is
    entered and the first wait after a scan that found nothing. *)
Definition waits_only_when_idle : history → Prop :=
  always (λ pre ev c,
            ev = EvCondWait →
            AXP_CQUEP_EMPTY (queue c) && negb (is_shutting_down c) = true ∨
            events pre = [EvLock PipelineMutex] ∨
            ∃ pre', events pre =
                      pre' ++ [EvScan; EvUnlock PipelineMutex;
                               EvLock PipelineMutex]).

(** After a scan that found nothing, once the worker has the pipeline
    mutex again its next event is a wait. *)
Definition waits_after_finding_nothing : history → Prop :=
  always (λ pre ev _,
            (∃ pre', events pre =
                       pre' ++ [EvScan; EvUnlock PipelineMutex;
                                EvLock PipelineMutex]) →
            ev = EvCondWait).

(** The invariant of the outer loop for it: the rule holds so far; [notMe]
    is set after a scan that found nothing; and the worker is not left
    with the mutex just taken after such a scan. *)
Definition idle_invariant (notMe : bool) (h : history) : Prop :=
  waits_after_finding_nothing h ∧
  ((∃ pre', events h = pre' ++ [EvScan; EvUnlock PipelineMutex]) →
   notMe = true) ∧
  ¬ ∃ pre', events h =
              pre' ++ [EvScan; EvUnlock PipelineMutex; EvLock PipelineMutex].

(** From turn [k] on, the other threads leave the CPU shutting down. *)
Definition shutting_down_from (env : nat → AXP_21264_CPU → AXP_21264_CPU)
    (k : nat) : Prop :=
  ∀ n c, k ≤ n → is_shutting_down (env n c) = true.

(** Past turn [k], the memory of the run is one in which the CPU is
    shutting down. *)
Definition seen_shutdown (k : nat) (s : run_state) : Prop :=
  k < clock s → is_shutting_down (cpu s) = true.

(** The run has returned, and its last event is the unlock of the
    pipeline mutex, in a memory in which the CPU is shutting down. *)
Definition returned_on_shutdown (r : option () * run_state) : Prop :=
  r.1 = Some () ∧
  ∃ pre c, trace r.2 = pre ++ [(EvUnlock PipelineMutex, c)] ∧
           is_shutting_down c = true.

(** * Concrete memories and threads, for the examples *)

(** A memory in which nothing is shutting down and nothing is queued. *)
Definition idle_cpu : AXP_21264_CPU := mkCPU Run 0 ∅ ∅ [].

(** The instruction at address [i], in state [st]. *)
Definition with_instruction (i : ptr) (st : AXP_INS_STATE)
    (c : AXP_21264_CPU) : AXP_21264_CPU :=
  mkCPU (cpuState c) (fpe c) (<[i := mkIns st NoException]> (instructions c))
        (entries c) (queue c).

(** The producer's enqueue: a fresh, unclaimed entry at the tail. *)
Definition enqueue (e i : ptr) (tag : AXP_PIPELINE) (c : AXP_21264_CPU)
    : AXP_21264_CPU :=
  mkCPU (cpuState c) (fpe c) (instructions c)
        (<[e := mkEntry i tag false]> (entries c)) (queue c ++ [e]).

(** The shutdown initiator's store to [cpuState]. *)
Definition shut_down (c : AXP_21264_CPU) : AXP_21264_CPU :=
  mkCPU ShuttingDown (fpe c) (instructions c) (entries c) (queue c).

(** Other threads that do nothing. *)
Definition quiet : nat → AXP_21264_CPU → AXP_21264_CPU := λ _ c, c.

(** Other threads that do nothing but start the shutdown at turn [k]. *)
Definition shutdown_at (k : nat) : nat → AXP_21264_CPU → AXP_21264_CPU :=
  λ n c, if decide (k ≤ n) then shut_down c else c.

(** The return function an Fbox worker is started with: not
    [AXP_ReturnIQEntry]. *)
Definition fbox_return : return_fn := ReturnFunction 1.

(** Register checks that always, or never, find the registers ready. *)
Definition always_ready : AXP_21264_CPU → ptr → bool := λ _ _, true.
Definition never_ready : AXP_21264_CPU → ptr → bool := λ _ _, false.

(** One entry (at address 10, for the instruction at address 20) is queued
    for the floating-point multiply pipeline, and its instruction has been
    aborted. *)
Definition aborted_cpu : AXP_21264_CPU :=
  enqueue 10 20 FboxMul (with_instruction 20 Aborted idle_cpu).

(** One entry is queued for either upper integer pipeline. *)
Definition queued_cpu : AXP_21264_CPU :=
  enqueue 10 20 EboxU0U1 (with_instruction 20 Queued idle_cpu).

(** One entry is queued for the floating-point multiply pipeline;
    [fpe] is 0. *)
Definition fp_disabled_cpu : AXP_21264_CPU :=
  enqueue 10 20 FboxMul (with_instruction 20 Queued idle_cpu).

(** Two entries: the one at 11 is for the lower pipeline L0, the one at 10
    for either upper pipeline. *)
Definition two_entries : gmap ptr AXP_QUEUE_ENTRY :=
  <[10 := mkEntry 20 EboxU0U1 false]> (<[11 := mkEntry 21 EboxL0 false]> ∅).

(** A run state in which the entry at 10 has just been claimed. *)
Definition claimed (c : AXP_21264_CPU) : run_state :=
  mkRun (set_processing 10 true c) 0 [].

(** * Tactics *)

(** Runs the straight-line code on a state whose parts are named. *)
Ltac exec :=
  cbv [iteration scan_and_process process_entry execute_entry fp_enabled
       dispatch_or_fault
       pthread_mutex_lock pthread_mutex_unlock pthread_cond_wait
       AXP_RemoveCountedQueue write_processing write_ins_state
       write_excRegMask read_ins_state read_fpe call_regCheckEntry
       AXP_Dispatcher call_return find_entry yield emit modify get_cpu
       mbind mret M_bind M_ret out_of_fuel cpu clock trace since fst snd negb].

(** Gathers what was appended to the history. *)
Ltac flat :=
  rewrite <- ?app_assoc; cbn [app]; rewrite ?drop_app_length;
  cbn [events fmap list_fmap fst last].

(** An event is not among the events of a path it does not occur on. *)
Ltac not_among :=
  rewrite ?elem_of_cons, ?elem_of_nil; intuition congruence.

(** Takes the value of [fpe] the worker read as the witness. *)
Ltac read_value :=
  match goal with |- context [EvReadFpe ?v] => exists v end.

(** Follows every path through the code after the wait, for a worker of
    pipeline [pipeline] with register check [regCheckEntry]: one goal per
    outcome of the shutdown test, the scan, the abort check, the register
    check and the floating-point enable check. *)
Ltac split_paths pipeline regCheckEntry :=
  exec;
  repeat
    (match goal with
     | |- context [is_shutting_down ?c] =>
         destruct (is_shutting_down c) eqn:?
     | |- context [scan ?p ?m ?q] =>
         destruct (scan p m q) as [?entry|] eqn:?
     | |- context [bool_decide (ins_state ?e ?c = Aborted)] =>
         destruct (bool_decide_reflect (ins_state e c = Aborted))
     | |- context [bool_decide (regCheckEntry ?c ?e = false)] =>
         destruct (regCheckEntry c e) eqn:?;
         rewrite ?(bool_decide_eq_true_2 (false = false)),
                 ?(bool_decide_eq_false_2 (true = false)) by done
     | |- context [bool_decide (pipeline = FboxMul)
                   || bool_decide (pipeline = FboxOther)] =>
         destruct (bool_decide (pipeline = FboxMul)
                   || bool_decide (pipeline = FboxOther)) eqn:?
     | |- context [bool_decide (fpe ?c = 1%Z)] =>
         destruct (bool_decide_reflect (fpe c = 1%Z))
     end; exec).

(** * Properties *)

(** ** The compatibility table and the scan *)

Lemma cannot_execute_row W T :
  is_worker W = true →
  cannot_execute W T = false ↔ T ∈ compatibility_row W.
Proof.
  intros HW.
  destruct W; try discriminate HW; destruct T;
    cbv [compatibility_row]; rewrite ?elem_of_cons, ?elem_of_nil;
    vm_compute; intuition discriminate.
Qed.

Lemma scan_Some pipeline mem q e :
  scan pipeline mem q = Some e →
  e ∈ q ∧ cannot_execute pipeline (pipeline_tag (mem !!! e)) = false ∧
  processing (mem !!! e) = false.
Proof.
  induction q as [|x q IH]; cbn [scan]; [done|].
  destruct (cannot_execute pipeline (pipeline_tag (mem !!! x))) eqn:Hc.
  - intros H; destruct (IH H) as (?&?&?); split_and!; [by right|done..].
  - case_bool_decide as Hp.
    + intros [= <-]; split_and!; [by left|done..].
    + intros H; destruct (IH H) as (?&?&?); split_and!; [by right|done..].
Qed.

Lemma scan_skips pipeline mem q :
  scan pipeline mem
    (filter (λ e, cannot_execute pipeline (pipeline_tag (mem !!! e)) = false) q)
  = scan pipeline mem q.
Proof.
  induction q as [|x q IH]; [done|].
  rewrite filter_cons. cbn [scan]. case_decide as Hd.
  - cbn [scan]. by rewrite Hd, IH.
  - rewrite IH. by destruct (cannot_execute pipeline _).
Qed.

(** C4.  For each of the six workers, the scan claims an entry only if the
    entry's pipeline tag is in the worker's row of the compatibility table
    (the rows being the ones the specification lists); the entry it claims
    is linked in the queue and was not claimed before; and entries whose tag
    is outside the row are skipped: the scan never returns one, and its
    result is the same as on the queue without them. *)
Theorem scan_claims_only_compatible (W : AXP_PIPELINE)
    (mem : gmap ptr AXP_QUEUE_ENTRY) (q : list ptr) :
  is_worker W = true →
  (∀ e, scan W mem q = Some e →
        e ∈ q ∧ pipeline_tag (mem !!! e) ∈ compatibility_row W ∧
        processing (mem !!! e) = false) ∧
  (∀ e, pipeline_tag (mem !!! e) ∉ compatibility_row W →
        scan W mem q ≠ Some e) ∧
  scan W mem (filter (λ e, pipeline_tag (mem !!! e) ∈ compatibility_row W) q)
  = scan W mem q.
Proof.
  intros HW. split_and!.
  - intros e He. apply scan_Some in He as (Hin & Hc & Hp).
    by rewrite <- (cannot_execute_row W) by done.
  - intros e Hout He. apply scan_Some in He as (_ & Hc & _).
    by apply Hout, cannot_execute_row.
  - rewrite <- (scan_skips W mem q). f_equal.
    apply list_filter_iff. intros e. symmetry. by apply cannot_execute_row.
Qed.

Lemma scan_finds pipeline mem q e :
  e ∈ q →
  cannot_execute pipeline (pipeline_tag (mem !!! e)) = false →
  processing (mem !!! e) = false →
  is_Some (scan pipeline mem q).
Proof.
  induction q as [|x q IH]; [by intros ?%elem_of_nil|].
  intros [->|Hin]%elem_of_cons Hc Hp; cbn [scan].
  - rewrite Hc, bool_decide_eq_true_2 by done. by eexists.
  - destruct (cannot_execute pipeline (pipeline_tag (mem !!! x))); [by apply IH|].
    case_bool_decide; [by eexists | by apply IH].
Qed.

(** X1.  The scan returns the first entry of the queue that the worker can
    execute and that is not claimed: [scan] returns [e] exactly when the
    queue is some [pre], then [e], then some [post], where every entry of
    [pre] is passed over and [e] is compatible and unclaimed. *)
Theorem scan_returns_the_first_eligible (pipeline : AXP_PIPELINE)
    (mem : gmap ptr AXP_QUEUE_ENTRY) (q : list ptr) (e : ptr) :
  scan pipeline mem q = Some e ↔
  ∃ pre post, q = pre ++ e :: post ∧
              Forall (passed_over pipeline mem) pre ∧
              cannot_execute pipeline (pipeline_tag (mem !!! e)) = false ∧
              processing (mem !!! e) = false.
Proof.
  split.
  - revert e. induction q as [|x q IH]; intros e; cbn [scan]; [done|].
    destruct (cannot_execute pipeline (pipeline_tag (mem !!! x))) eqn:Hc.
    + intros (pre & post & -> & Hpre & He)%IH.
      exists (x :: pre), post. split_and!; try done; try apply He.
      constructor; [by left|done].
    + case_bool_decide as Hp.
      * intros [= <-]. exists [], q. by split_and!.
      * intros (pre & post & -> & Hpre & He)%IH.
        exists (x :: pre), post. split_and!; try done; try apply He.
        constructor; [right; by destruct (processing _)|done].
  - intros (pre & post & -> & Hpre & Hc & Hp).
    induction Hpre as [|x pre [Hx|Hx] _ IH]; cbn [scan app].
    + rewrite Hc. by rewrite bool_decide_eq_true_2.
    + by rewrite Hx.
    + destruct (cannot_execute pipeline (pipeline_tag (mem !!! x))); [done|].
      rewrite bool_decide_eq_false_2; [done|]. by rewrite Hx.
Qed.

(** X2.  The scan finds nothing exactly when every entry linked in the
    queue is passed over: incompatible with the worker, or claimed. *)
Theorem scan_finds_nothing_iff_all_passed_over (pipeline : AXP_PIPELINE)
    (mem : gmap ptr AXP_QUEUE_ENTRY) (q : list ptr) :
  scan pipeline mem q = None ↔ Forall (passed_over pipeline mem) q.
Proof.
  induction q as [|x q IH]; cbn [scan]; [done|].
  rewrite Forall_cons, <- IH. unfold passed_over.
  destruct (cannot_execute pipeline (pipeline_tag (mem !!! x))).
  - intuition.
  - case_bool_decide as Hp.
    + split; [done|]. intros [[|] _]; congruence.
    + split; [|intuition]. intros ?. split; [|done]. right.
      by destruct (processing _).
Qed.

(** X3.  The table shares the tags out among the six workers.  Every tag
    but [PipelineNone] is accepted by some worker; a worker accepts its own
    tag and never [PipelineNone]; the tag that names a worker is accepted by
    that worker only; and a tag that a floating-point worker accepts is
    accepted by no other worker. *)
Theorem pipeCond_shares_out_the_tags :
  (∀ T, T ≠ PipelineNone →
        ∃ W, is_worker W = true ∧ cannot_execute W T = false) ∧
  (∀ W, is_worker W = true →
        cannot_execute W W = false ∧ cannot_execute W PipelineNone = true) ∧
  (∀ W W', is_worker W = true → is_worker W' = true →
           cannot_execute W' W = false → W' = W) ∧
  (∀ W T, is_worker W = true → cannot_execute W T = false →
          cannot_execute FboxMul T = false ∨
          cannot_execute FboxOther T = false →
          W = T).
Proof.
  split_and!.
  - intros T HT. destruct T; try done;
      first [ by exists EboxU0 | by exists EboxU1 | by exists EboxL0
            | by exists EboxL1 | by exists FboxMul | by exists FboxOther ].
  - intros W HW. by destruct W.
  - intros W W' HW HW'. by destruct W, W'.
  - intros W T HW. destruct W; try done; destruct T; try done; intros _ [|]; done.
Qed.

(** ** Writes leave the rest of the memory alone *)

Lemma set_processing_frame entry b c :
  queue (set_processing entry b c) = queue c ∧
  instructions (set_processing entry b c) = instructions c ∧
  ins_state entry (set_processing entry b c) = ins_state entry c ∧
  ins_excRegMask entry (set_processing entry b c) = ins_excRegMask entry c ∧
  processing (entries (set_processing entry b c) !!! entry) = b ∧
  pipeline_tag (entries (set_processing entry b c) !!! entry)
    = pipeline_tag (entries c !!! entry) ∧
  ∀ e', e' ≠ entry → entries (set_processing entry b c) !! e' = entries c !! e'.
Proof.
  unfold ins_state, ins_excRegMask, set_processing;
    cbn [queue instructions entries].
  rewrite lookup_total_insert_eq. split_and!; try done.
  intros e' Hne. by rewrite lookup_insert_ne.
Qed.

Lemma fault_then_waiting entry c :
  let c' := set_ins_state entry WaitingRetirement
              (set_excRegMask entry FloatingDisabledFault c) in
  ins_excRegMask entry c' = FloatingDisabledFault ∧
  ins_state entry c' = WaitingRetirement.
Proof.
  unfold ins_state, ins_excRegMask, set_ins_state, set_excRegMask;
    cbn [queue instructions entries].
  by rewrite !lookup_total_insert_eq.
Qed.

Lemma events_snoc (h : history) ev c : events (h ++ [(ev, c)]) = events h ++ [ev].
Proof. unfold events. by rewrite fmap_app. Qed.

(** ** The paths through one iteration *)

Section Paths.

Variable env : nat → AXP_21264_CPU → AXP_21264_CPU.
Variable pipeline : AXP_PIPELINE.
Variable regCheckEntry : AXP_21264_CPU → ptr → bool.
Variable returnEntry : return_fn.

(** C6.  When the register check of a claimed entry returns false, the
    worker clears the entry's processing flag and does nothing else: the
    events of that path are the abort check, the register check and the
    one write; the memory the worker leaves is the one it found after the
    register check, with the flag cleared.  The queue, the instructions
    (state and excRegMask of the entry's instruction among them) and
    every other entry are as they were, [AXP_RemoveCountedQueue] and the
    return function are not called, and a scan can claim the entry again
    if it is linked and compatible. *)
Theorem register_stall_only_clears_processing (entry : ptr) (s : run_state) :
  let r := process_entry env pipeline regCheckEntry returnEntry entry s in
  EvRegCheck entry false ∈ events (since s r.2) →
  r.1 = Some () ∧
  ∃ st c,
    st ≠ Aborted ∧
    events (since s r.2) =
      [EvLock RobMutex; EvReadInsState entry st; EvUnlock RobMutex;
       EvRegCheck entry false; EvSetProcessing entry false] ∧
    last (since s r.2) = Some (EvSetProcessing entry false, c) ∧
    cpu r.2 = set_processing entry false c ∧
    queue (cpu r.2) = queue c ∧
    instructions (cpu r.2) = instructions c ∧
    ins_state entry (cpu r.2) = ins_state entry c ∧
    ins_excRegMask entry (cpu r.2) = ins_excRegMask entry c ∧
    processing (entries (cpu r.2) !!! entry) = false ∧
    (∀ e', e' ≠ entry → entries (cpu r.2) !! e' = entries c !! e') ∧
    (entry ∈ queue c →
     cannot_execute pipeline (pipeline_tag (entries c !!! entry)) = false →
     is_Some (scan pipeline (entries (cpu r.2)) (queue (cpu r.2)))).
Proof.
  destruct s as [c n t]. exec.
  case_bool_decide as Hst; [flat; not_among|].
  case_bool_decide as Hrc.
  - flat. intros _. split; [done|].
    exists (ins_state entry (env n c)), (env (S n) (env n c)).
    rewrite Hrc.
    pose proof (set_processing_frame entry false (env (S n) (env n c)))
      as (Hq & Hi & Hs & Hx & Hp & Ht & Ho).
    split_and!; try done.
    intros Hin Hc. apply (scan_finds _ _ _ entry); [by rewrite Hq|by rewrite Ht|done].
  - destruct (bool_decide (pipeline = FboxMul) || _);
      [case_bool_decide|]; flat; not_among.
Qed.

(** C5.  Once the entry is dequeued and marked as executing: a
    floating-point worker takes the IPR mutex and reads [fpe]; the value it
    reads is the one that the memory [c] in which it holds the mutex has in
    [fpe].  If that value is 1 it calls the dispatcher; if not, it does not
    call the dispatcher but, under the ROB mutex, sets excRegMask to
    FloatingDisabledFault and state to WaitingRetirement, which is what the
    memory holds when it releases the ROB mutex (the thirteenth event of
    the path).  An integer worker reads nothing and calls the
    dispatcher. *)
Theorem floating_point_enable_check (entry : ptr) (s : run_state) :
  let r := execute_entry env pipeline returnEntry entry s in
  r.1 = Some () ∧
  (pipeline = FboxMul ∨ pipeline = FboxOther →
   ∃ c,
     since s r.2 !! 6 = Some (EvLock IBoxIPRMutex, c) ∧
     since s r.2 !! 7 = Some (EvReadFpe (fpe c), c) ∧
     events (since s r.2) =
       dequeue_events entry ++
       [EvLock IBoxIPRMutex; EvReadFpe (fpe c); EvUnlock IBoxIPRMutex] ++
       (if decide (fpe c = 1%Z)
        then [EvDispatcher entry]
        else [EvLock RobMutex;
              EvSetExcRegMask entry FloatingDisabledFault;
              EvSetInsState entry WaitingRetirement;
              EvUnlock RobMutex]) ++
       release_events returnEntry entry ∧
     (fpe c ≠ 1%Z →
      ∃ c', since s r.2 !! 12 = Some (EvUnlock RobMutex, c') ∧
            ins_excRegMask entry c' = FloatingDisabledFault ∧
            ins_state entry c' = WaitingRetirement)) ∧
  (pipeline ∈ [EboxU0; EboxU1; EboxL0; EboxL1] →
   events (since s r.2) =
     dequeue_events entry ++ [EvDispatcher entry] ++
     release_events returnEntry entry).
Proof.
  destruct s as [c n t]. exec.
  destruct (bool_decide (pipeline = FboxMul) || bool_decide (pipeline = FboxOther))
    eqn:Hfp; exec.
  - assert (pipeline ∉ [EboxU0; EboxU1; EboxL0; EboxL1]) as Hint.
    { intros Hint. revert Hfp. rewrite !elem_of_cons, elem_of_nil in Hint.
      destruct Hint as [->|[->|[->|[->|[]]]]]; done. }
    match goal with
    | |- context [bool_decide (fpe ?m = 1%Z)] =>
        destruct (bool_decide_reflect (fpe m = 1%Z)) as [Hv|Hv]; exec; flat;
        (split; [done|]); (split; [intros _|done]); exists m
    end.
    + rewrite decide_True by done. by split_and!.
    + rewrite decide_False by done.
      split_and!; [reflexivity..|]. intros _.
      eexists. split; [reflexivity|]. apply fault_then_waiting.
  - flat. split; [done|]. split; [|done].
    intros [->| ->]; done.
Qed.

(** The abort path, lines 292-304: whatever the worker was started with,
    an entry whose instruction is found aborted is taken off the queue with
    no mutex taken after the ROB mutex was released, its claim flag is
    cleared, and it is handed to [AXP_ReturnIQEntry]; the dispatcher is not
    called. *)
Lemma abort_path_events (entry : ptr) (s : run_state) :
  let r := process_entry env pipeline regCheckEntry returnEntry entry s in
  EvReadInsState entry Aborted ∈ events (since s r.2) →
  r.1 = Some () ∧
  events (since s r.2) =
    [EvLock RobMutex; EvReadInsState entry Aborted; EvUnlock RobMutex;
     EvRemoveCountedQueue entry; EvSetProcessing entry false;
     EvReturnEntry AXP_ReturnIQEntry entry].
Proof.
  destruct s as [c n t]. exec.
  case_bool_decide as Hst; [flat; intros _; by rewrite Hst|].
  case_bool_decide as Hrc; [flat; not_among|].
  destruct (bool_decide (pipeline = FboxMul) || _);
    [case_bool_decide|]; flat; not_among.
Qed.

End Paths.

(** ** Properties of every step of a run *)

Lemma always_nil P : always P [].
Proof. intros pre ev c post H. by destruct pre. Qed.

Lemma always_snoc P h ev c :
  always P h → P h ev c → always P (h ++ [(ev, c)]).
Proof.
  intros Hh Hlast pre ev' c' post.
  destruct post as [|x post _] using rev_ind.
  - intros [-> [= -> ->]]%app_inj_tail. done.
  - rewrite app_comm_cons, app_assoc.
    intros [-> _]%app_inj_tail. by eapply Hh.
Qed.

Lemma always_waits P h w :
  (∀ pre c, P pre EvCondWait c) →
  always P h → Forall (λ p, p.1 = EvCondWait) w → always P (h ++ w).
Proof.
  intros HP Hh. induction w as [|[ev c] w IH] using rev_ind; intros Hall.
  - by rewrite app_nil_r.
  - apply Forall_app in Hall as [Hall Hlast]. rewrite Forall_singleton in Hlast.
    rewrite app_assoc. apply always_snoc; [by apply IH|].
    cbn [fst] in Hlast. by rewrite Hlast.
Qed.

Lemma ends_with4 {A} (h : list A) a b c d :
  ∃ pre, (((h ++ [a]) ++ [b]) ++ [c]) ++ [d] = pre ++ [a; b; c; d].
Proof. exists h. by rewrite <- !app_assoc. Qed.

Lemma snoc_eq_snoc2 {A} (h pre : list A) a x y :
  h ++ [a] = pre ++ [x; y] → h = pre ++ [x] ∧ a = y.
Proof.
  change (pre ++ [x; y]) with (pre ++ [x] ++ [y]). rewrite app_assoc.
  by intros [-> ->]%app_inj_tail.
Qed.

Lemma snoc_eq_snoc3 {A} (h pre : list A) a x y z :
  h ++ [a] = pre ++ [x; y; z] → h = pre ++ [x; y] ∧ a = z.
Proof.
  change (pre ++ [x; y; z]) with (pre ++ [x; y] ++ [z]). rewrite app_assoc.
  by intros [-> ->]%app_inj_tail.
Qed.

Lemma snoc_eq_snoc4 {A} (h pre : list A) a x y z u :
  h ++ [a] = pre ++ [x; y; z; u] → h = pre ++ [x; y; z] ∧ a = u.
Proof.
  change (pre ++ [x; y; z; u]) with (pre ++ [x; y; z] ++ [u]). rewrite app_assoc.
  by intros [-> ->]%app_inj_tail.
Qed.

Lemma elem_of_events_snoc (h : history) ev ev' c :
  ev ∈ events h → ev ∈ events (h ++ [(ev', c)]).
Proof. rewrite events_snoc, elem_of_app. by left. Qed.

Lemma elem_of_events_last (h : history) ev c : ev ∈ events (h ++ [(ev, c)]).
Proof. rewrite events_snoc, elem_of_app, list_elem_of_singleton. by right. Qed.

Lemma always_impl (P Q : history → event → AXP_21264_CPU → Prop) h :
  (∀ pre ev c, P pre ev c → Q pre ev c) → always P h → always Q h.
Proof. intros HPQ Hh pre ev c post Heq. by eapply HPQ, Hh. Qed.

(** Waits that come one after the other, the history before each of them
    given. *)
Lemma always_waits_after P h w :
  (∀ w' c, Forall (λ p, p.1 = EvCondWait) w' → P (h ++ w') EvCondWait c) →
  always P h → Forall (λ p, p.1 = EvCondWait) w → always P (h ++ w).
Proof.
  intros HP Hh. induction w as [|[ev c] w IH] using rev_ind; intros Hall.
  - by rewrite app_nil_r.
  - apply Forall_app in Hall as [Hall Hlast]. rewrite Forall_singleton in Hlast.
    rewrite app_assoc. apply always_snoc; [by apply IH|].
    cbn [fst] in Hlast. rewrite Hlast. by apply HP.
Qed.

(** Events added to a history, the history before each of them given. *)
Lemma always_app P h w :
  always P h →
  (∀ w1 ev c w2, w = w1 ++ (ev, c) :: w2 → P (h ++ w1) ev c) →
  always P (h ++ w).
Proof.
  intros Hh. induction w as [|[ev c] w IH] using rev_ind; intros Hw.
  - by rewrite app_nil_r.
  - rewrite app_assoc. apply always_snoc.
    + apply IH. intros w1 ev' c' w2 ->. apply (Hw w1 ev' c' (w2 ++ [(ev, c)])).
      by rewrite <- app_assoc.
    + by apply (Hw w ev c []).
Qed.

Lemma holds_snoc m t ev : holds m (t ++ [ev]) = hold_step m (holds m t) ev.
Proof. unfold holds. by rewrite foldl_app. Qed.

Lemma holds_waits m (h w : history) :
  Forall (λ p, p.1 = EvCondWait) w →
  holds m (events (h ++ w)) = holds m (events h).
Proof.
  induction w as [|[ev c] w IH] using rev_ind; intros Hall.
  - by rewrite app_nil_r.
  - apply Forall_app in Hall as [Hall Hlast]. rewrite Forall_singleton in Hlast.
    cbn [fst] in Hlast. subst ev.
    by rewrite app_assoc, events_snoc, holds_snoc, IH.
Qed.

Lemma phase_snoc t ev : phase (t ++ [ev]) = phase_step (phase t) ev.
Proof. unfold phase. by rewrite foldl_app. Qed.

Lemma phase_waits (h w : history) :
  Forall (λ p, p.1 = EvCondWait) w →
  phase (events (h ++ w)) = phase (events h).
Proof.
  induction w as [|[ev c] w IH] using rev_ind; intros Hall.
  - by rewrite app_nil_r.
  - apply Forall_app in Hall as [Hall Hlast]. rewrite Forall_singleton in Hlast.
    cbn [fst] in Hlast. subst ev.
    by rewrite app_assoc, events_snoc, phase_snoc, IH.
Qed.

Section Runs.

Variable env : nat → AXP_21264_CPU → AXP_21264_CPU.
Variable pipeline : AXP_PIPELINE.
Variable regCheckEntry : AXP_21264_CPU → ptr → bool.
Variable returnEntry : return_fn.

(** The wait for work only waits.  If it does not wait at all, the wait
    condition was false and nothing has changed; if it waits, the wait
    condition was true and the first wait is in the memory it started
    in. *)
Lemma wait_for_work_spec fuel notMe s r s' :
  wait_for_work env fuel notMe s = (r, s') →
  ∃ w, trace s' = trace s ++ w ∧
       Forall (λ p, p.1 = EvCondWait) w ∧
       match w with
       | [] => r = Some () → s' = s ∧ wait_condition notMe (cpu s) = false
       | p :: _ => p = (EvCondWait, cpu s) ∧ wait_condition notMe (cpu s) = true
       end.
Proof.
  revert notMe s. induction fuel as [|fuel IH]; intros notMe s.
  { intros [= <- <-]. exists []. by rewrite app_nil_r. }
  cbn [wait_for_work]. destruct s as [c n t].
  cbv [mbind M_bind get_cpu pthread_cond_wait emit yield mret M_ret].
  cbn [cpu clock trace]. fold (wait_condition notMe c).
  destruct (wait_condition notMe c) eqn:Hc.
  - intros (w & Hw & Hall & _)%IH.
    exists ((EvCondWait, c) :: w). cbn [trace] in Hw.
    rewrite Hw, <- app_assoc. split_and!; try done. by constructor.
  - intros [= <- <-]. exists []. by rewrite app_nil_r.
Qed.

(** The rule for the outer loop: a property [I] of [notMe] and the state at
    the top of the loop that every iteration keeps gives a property [Q] of
    the state the loop ends in, be it by returning or by running out of
    fuel. *)
Lemma main_loop_rule (I : bool → run_state → Prop) (Q : run_state → Prop) :
  (∀ b s, I b s → Q s) →
  (∀ fuel b c n t,
     I b (mkRun c n t) → is_shutting_down (env n c) = false →
     let r := iteration env pipeline regCheckEntry returnEntry fuel b
                (mkRun (env n c) (S n) t) in
     match r.1 with Some b' => I b' r.2 | None => Q r.2 end) →
  (∀ b c n t,
     I b (mkRun c n t) → is_shutting_down (env n c) = true →
     Q (mkRun (env n c) (S n) (t ++ [(EvUnlock PipelineMutex, env n c)]))) →
  ∀ fuel b s, I b s →
    Q (main_loop env pipeline regCheckEntry returnEntry fuel b s).2.
Proof.
  intros Hout Hiter Hexit.
  induction fuel as [|fuel IH]; intros b s HI; [by eapply Hout|].
  destruct s as [c n t].
  cbn [main_loop]. cbv [mbind mret M_bind M_ret yield get_cpu cpu clock trace].
  destruct (is_shutting_down (env n c)) eqn:Hsd; cbn [negb].
  - by eapply Hexit.
  - specialize (Hiter fuel _ _ _ _ HI Hsd). cbv zeta in Hiter.
    destruct (iteration _ _ _ _ _ _ _) as [[b'|] s']; cbn [fst snd] in *.
    + by apply IH.
    + done.
Qed.

(** ** The history only grows *)

Lemma extends_ret {A} (a : A) : extends (mret a).
Proof. intros s. exists []. by rewrite app_nil_r. Qed.

Lemma extends_out_of_fuel {A} : extends (@out_of_fuel A).
Proof. intros s. exists []. by rewrite app_nil_r. Qed.

Lemma extends_get_cpu : extends get_cpu.
Proof. intros s. exists []. by rewrite app_nil_r. Qed.

Lemma extends_modify f : extends (modify f).
Proof. intros s. exists []. by rewrite app_nil_r. Qed.

Lemma extends_yield : extends (yield env).
Proof. intros s. exists []. by rewrite app_nil_r. Qed.

Lemma extends_emit ev : extends (emit ev).
Proof. intros s. by eexists. Qed.

Lemma extends_bind {A B} (m : M A) (f : A → M B) :
  extends m → (∀ a, extends (f a)) → extends (m ≫= f).
Proof.
  intros Hm Hf s. unfold mbind, M_bind.
  destruct (Hm s) as [h Hh]. destruct (m s) as [[a|] s']; cbn [snd] in *.
  - destruct (Hf a s') as [h' Hh']. exists (h ++ h').
    by rewrite Hh', Hh, app_assoc.
  - by exists h.
Qed.

Create HintDb history_grows discriminated.

#[local] Hint Resolve extends_ret extends_out_of_fuel extends_get_cpu
  extends_modify extends_yield extends_emit extends_bind : history_grows.
#[local] Hint Extern 1 (extends (if ?b then _ else _)) =>
  destruct b : history_grows.
#[local] Hint Extern 1 (extends (match ?x with Some _ => _ | None => _ end)) =>
  destruct x : history_grows.

Lemma extends_wait_for_work fuel notMe : extends (wait_for_work env fuel notMe).
Proof.
  revert notMe. induction fuel as [|fuel IH]; intros notMe; cbn [wait_for_work];
    unfold pthread_cond_wait; auto 10 with history_grows.
Qed.

Lemma extends_process_entry entry :
  extends (process_entry env pipeline regCheckEntry returnEntry entry).
Proof.
  unfold process_entry, execute_entry, fp_enabled, dispatch_or_fault,
    pthread_mutex_lock, pthread_mutex_unlock, AXP_RemoveCountedQueue,
    write_processing, write_ins_state, write_excRegMask, read_ins_state,
    read_fpe, call_regCheckEntry, AXP_Dispatcher, call_return.
  auto 40 with history_grows.
Qed.

#[local] Hint Resolve extends_wait_for_work extends_process_entry
  : history_grows.

Lemma extends_scan_and_process :
  extends (scan_and_process env pipeline regCheckEntry returnEntry).
Proof.
  unfold scan_and_process, find_entry, pthread_mutex_unlock, write_processing.
  auto 20 with history_grows.
Qed.

Lemma extends_iteration fuel notMe :
  extends (iteration env pipeline regCheckEntry returnEntry fuel notMe).
Proof.
  pose proof extends_scan_and_process.
  unfold iteration, pthread_mutex_lock. auto 10 with history_grows.
Qed.

Lemma extends_main_loop fuel notMe :
  extends (main_loop env pipeline regCheckEntry returnEntry fuel notMe).
Proof.
  pose proof extends_iteration.
  revert notMe. induction fuel as [|fuel IH]; intros notMe; cbn [main_loop];
    unfold pthread_mutex_unlock; auto 10 with history_grows.
Qed.

(** One turn of the outer loop when the CPU is not shutting down. *)
Lemma main_loop_running fuel notMe c n t :
  is_shutting_down (env n c) = false →
  main_loop env pipeline regCheckEntry returnEntry (S fuel) notMe (mkRun c n t)
  = (notMe' ← iteration env pipeline regCheckEntry returnEntry fuel notMe;
     main_loop env pipeline regCheckEntry returnEntry fuel notMe')
      (mkRun (env n c) (S n) t).
Proof.
  intros Hsd. cbn [main_loop].
  cbv [mbind M_bind yield get_cpu cpu clock trace]. by rewrite Hsd.
Qed.

(** The first wake-up of a wait for work that is entered with [notMe]
    set. *)
Lemma wait_for_work_notMe fuel c n t :
  wait_for_work env (S fuel) true (mkRun c n t)
  = wait_for_work env fuel false
      (mkRun (env n c) (S n) (t ++ [(EvCondWait, c)])).
Proof.
  cbn [wait_for_work].
  cbv [mbind M_bind get_cpu pthread_cond_wait emit yield cpu clock trace].
  by rewrite orb_true_r.
Qed.

(** ** C10: a worker waits before its first scan *)

(** After a wait for work that was entered with [notMe] set, or after
    an earlier wait, the history holds a wait. *)
Lemma waited_after_wait_for_work fuel notMe s s' :
  wait_for_work env fuel notMe s = (Some (), s') →
  notMe = true ∨ EvCondWait ∈ events (trace s) →
  EvCondWait ∈ events (trace s').
Proof.
  intros (w & -> & _ & Hw)%wait_for_work_spec Hor.
  unfold events. rewrite fmap_app, elem_of_app.
  destruct w as [|p w].
  - destruct Hw as [_ Hc]; [done|]. left.
    destruct Hor as [->|]; [|done].
    unfold wait_condition in Hc. by rewrite orb_true_r in Hc.
  - destruct Hw as [-> _]. right. by left.
Qed.

Lemma trace_after_wait_for_work fuel notMe s r s' :
  wait_for_work env fuel notMe s = (r, s') →
  wait_precedes_scan (trace s) → wait_precedes_scan (trace s').
Proof.
  intros (w & -> & Hall & _)%wait_for_work_spec Hs.
  apply always_waits; [by intros ?? [=]|done..].
Qed.

Lemma iteration_waits_before_scan fuel notMe s :
  wait_precedes_scan (trace s) →
  notMe = true ∨ EvCondWait ∈ events (trace s) →
  let r := iteration env pipeline regCheckEntry returnEntry fuel notMe s in
  wait_precedes_scan (trace r.2) ∧
  (is_Some r.1 → EvCondWait ∈ events (trace r.2)).
Proof.
  destruct s as [c n t]. cbn [trace]. intros Hs Hor.
  cbv [iteration pthread_mutex_lock yield emit mbind M_bind].
  cbn [cpu clock trace].
  destruct (wait_for_work _ _ _ _) as [[[]|] [c2 n2 t2]] eqn:Hwait.
  2:{ cbn [fst snd trace]. split; [|by intros [? [=]]].
      apply (trace_after_wait_for_work _ _ _ _ _ Hwait). cbn [trace].
      apply always_snoc; [done|by intros [=]]. }
  pose proof Hwait as Hw2.
  apply trace_after_wait_for_work in Hwait; cbn [trace] in Hwait;
    [|apply always_snoc; [done|by intros [=]]].
  apply waited_after_wait_for_work in Hw2; cbn [trace] in Hw2;
    [|destruct Hor; [by left|right; by apply elem_of_events_snoc]].
  split_paths pipeline regCheckEntry;
    (split;
     [ repeat (apply always_snoc; [|first [by intros [=] | by intros _]]); done
     | intros _; repeat apply elem_of_events_snoc; done ]).
Qed.


(** ** C7: executing only after the removal *)

Lemma remove_counted_queue_unlinks e c :
  (e ∉ queue (remove_counted_queue e c)) ∧
  entries (remove_counted_queue e c) = entries c.
Proof.
  split; [|done]. cbn [remove_counted_queue queue].
  by intros [? _]%list_elem_of_filter.
Qed.

Section ExecutingAfterRemoval.

(** [U] is what is to be shown of the memory in which the write is done;
    it is to hold of every memory that comes from the claim of [e] by the
    turns of the other threads and the removal of [e]. *)
Variable e : ptr.
Variable U : AXP_21264_CPU → Prop.
Hypothesis U_after_removal : ∀ k1 k2 k3 k4 c,
  U (env k4 (remove_counted_queue e
               (env k3 (env k2 (env k1 (set_processing e true c)))))).

Lemma scan_and_process_executing s :
  executing_step e U (trace s) →
  executing_step e U
    (trace (scan_and_process env pipeline regCheckEntry returnEntry s).2).
Proof.
  destruct s as [c n t]. cbn [trace]. intros Hs.
  split_paths pipeline regCheckEntry;
    repeat (apply always_snoc; [|first [by intros [=] | intros [= ->]]]);
    try done.
  all: split;
    [ apply U_after_removal
    | rewrite !events_snoc; apply ends_with4 ].
Qed.

Lemma iteration_executing fuel notMe s :
  executing_step e U (trace s) →
  executing_step e U
    (trace (iteration env pipeline regCheckEntry returnEntry fuel notMe s).2).
Proof.
  destruct s as [c n t]. cbn [trace]. intros Hs.
  cbv [iteration pthread_mutex_lock yield emit mbind M_bind].
  cbn [cpu clock trace].
  destruct (wait_for_work _ _ _ _) as [r s2] eqn:Hwait.
  apply wait_for_work_spec in Hwait as (w & Hw & Hall & _). cbn [trace] in Hw.
  assert (executing_step e U (trace s2)) as Hs2.
  { rewrite Hw. apply always_waits; [by intros ?? [=]| |done].
    apply always_snoc; [done|by intros [=]]. }
  destruct r as [[]|]; cbn [snd]; [|done].
  by apply scan_and_process_executing.
Qed.

Lemma run_executing fuel c0 :
  executing_step e U (trace (run env pipeline regCheckEntry returnEntry fuel c0).2).
Proof.
  unfold run, AXP_Execution_Box.
  apply (main_loop_rule (λ _ s, executing_step e U (trace s))
                        (λ s, executing_step e U (trace s))).
  - done.
  - intros f b c n t Hs _. cbv zeta.
    pose proof (iteration_executing f b (mkRun (env n c) (S n) t) Hs) as H.
    by destruct (iteration _ _ _ _ _ _ _).1.
  - intros b c n t Hs _. cbn [trace] in *.
    apply always_snoc; [done|by intros [=]].
  - apply always_nil.
Qed.

End ExecutingAfterRemoval.

(** C7.  In every run, a worker writes [Executing] to the instruction of an
    entry only after it has removed the entry from the queue: the write is
    immediately preceded by the removal of that entry, done under the
    pipeline mutex, and by the taking of the ROB mutex.  And among other
    threads that leave a claimed entry alone (they neither clear its claim
    flag nor link it), the entry is not linked in the queue of the memory
    the write is done in. *)
Theorem executing_only_after_removal (e : ptr) (fuel : nat)
    (c0 : AXP_21264_CPU) :
  let h := trace (run env pipeline regCheckEntry returnEntry fuel c0).2 in
  removal_precedes_executing e h ∧
  ((∀ n c, processing (entries c !!! e) = true →
           processing (entries (env n c) !!! e) = true) →
   (∀ n c, processing (entries c !!! e) = true →
           e ∉ queue c → e ∉ queue (env n c)) →
   unlinked_when_executing e h).
Proof.
  split.
  - intros pre ev c post Heq Hev.
    by destruct (run_executing e (λ _, True) ltac:(done) fuel c0
                   pre ev c post Heq Hev).
  - intros Hclaim Hunlinked pre ev c post Heq Hev.
    refine (proj1 (run_executing e (λ c, e ∉ queue c) _ fuel c0
                     pre ev c post Heq Hev)).
    intros k1 k2 k3 k4 m.
    apply Hunlinked; [|apply remove_counted_queue_unlinks].
    rewrite (proj2 (remove_counted_queue_unlinks _ _)).
    repeat apply Hclaim. apply set_processing_frame.
Qed.

(** ** C3: what follows a register stall *)

Lemma rescan_rule_waits notMe h c1 w :
  rescan_rule (h ++ [(EvLock PipelineMutex, c1)]) →
  (ends_with_stall h → notMe = false) →
  Forall (λ p, p.1 = EvCondWait) w →
  (w ≠ [] → wait_condition notMe c1 = true) →
  rescan_rule ((h ++ [(EvLock PipelineMutex, c1)]) ++ w).
Proof.
  intros Hh Hstall. induction w as [|[ev c] w IH] using rev_ind; intros Hall Hc.
  - by rewrite app_nil_r.
  - apply Forall_app in Hall as [Hall Hlast]. rewrite Forall_singleton in Hlast.
    cbn [fst] in Hlast. subst ev.
    rewrite app_assoc. apply always_snoc.
    + apply IH; [done|]. intros _. apply Hc. by destruct w.
    + intros pre' e c2 c3 c4 Heq.
      destruct w as [|[ev' c'] w _] using rev_ind.
      * rewrite app_nil_r in Heq.
        apply snoc_eq_snoc3 in Heq as [-> [= ->]].
        rewrite (Hstall ltac:(by eexists _, _, _, _)) in Hc.
        unfold wait_condition in Hc. rewrite orb_false_r in Hc.
        specialize (Hc ltac:(done)).
        split; [done|]. intros Hne. apply andb_true_iff in Hc as [Hc _].
        congruence.
      * rewrite app_assoc in Heq.
        apply snoc_eq_snoc3 in Heq as [_ [= -> ->]].
        apply Forall_app in Hall as [_ Hlast]. by rewrite Forall_singleton in Hlast.
Qed.

Lemma iteration_rescan fuel notMe s :
  rescan_invariant notMe (trace s) →
  let r := iteration env pipeline regCheckEntry returnEntry fuel notMe s in
  match r.1 with
  | Some notMe' => rescan_invariant notMe' (trace r.2)
  | None => rescan_rule (trace r.2)
  end.
Proof.
  destruct s as [c n t]. cbn [trace]. intros (Hrule & Hstall & Hsd).
  cbv [iteration pthread_mutex_lock yield emit mbind M_bind].
  cbn [cpu clock trace].
  assert (rescan_rule (t ++ [(EvLock PipelineMutex, env n c)])) as Hlock.
  { apply always_snoc; [done|]. intros pre' e c1 c2 c3 ->.
    rewrite (Hsd _ _ _ _ _ eq_refl). by rewrite andb_false_r. }
  destruct (wait_for_work _ _ _ _) as [r [c2 n2 t2]] eqn:Hwait.
  apply wait_for_work_spec in Hwait as (w & Hw & Hall & Hfirst).
  cbn [trace cpu] in Hw, Hfirst. subst t2.
  assert (rescan_rule ((t ++ [(EvLock PipelineMutex, env n c)]) ++ w)) as Hw.
  { apply (rescan_rule_waits notMe); try done.
    destruct w; [done|]. intros _. apply Hfirst. }
  destruct r as [[]|]; cbn [fst snd trace]; [|done].
  assert (∀ pre' e k1 k2 c3,
            (t ++ [(EvLock PipelineMutex, env n c)]) ++ w =
              pre' ++ [(EvRegCheck e false, k1); (EvSetProcessing e false, k2);
                       (EvLock PipelineMutex, c3)] →
            c3 = c2 ∧
            AXP_CQUEP_EMPTY (queue c2) && negb (is_shutting_down c2) = false)
    as Hafter.
  { intros pre' e k1 k2 c3 Heq.
    destruct w as [|[ev' c'] w _] using rev_ind.
    - rewrite app_nil_r in Heq. destruct Hfirst as [Hsame Hc]; [done|].
      injection Hsame as -> _ _.
      apply snoc_eq_snoc3 in Heq as [-> [= <-]].
      rewrite Hstall in Hc by (by eexists _, _, _, _).
      unfold wait_condition in Hc. by rewrite orb_false_r in Hc.
    - rewrite app_assoc in Heq.
      apply snoc_eq_snoc3 in Heq as [_ [= -> ->]].
      apply Forall_app in Hall as [_ Hlast].
      by rewrite Forall_singleton in Hlast. }
  clear Hfirst Hall Hstall Hsd Hlock Hrule.
  set (t2 := (t ++ [(EvLock PipelineMutex, env n c)]) ++ w) in *.
  clearbody t2.
  exec. destruct (is_shutting_down c2) eqn:Hsd2; exec.
  { split_and!; [done..|].
    intros pre' e k1 k2 c3 Heq. by destruct (Hafter _ _ _ _ _ Heq) as [-> _]. }
  assert (∀ pre' e k1 k2 c3,
            t2 = pre' ++ [(EvRegCheck e false, k1); (EvSetProcessing e false, k2);
                          (EvLock PipelineMutex, c3)] →
            (EvScan = EvCondWait ↔
             AXP_CQUEP_EMPTY (queue c3) && negb (is_shutting_down c3) = true) ∧
            (AXP_CQUEP_EMPTY (queue c3) = false →
             is_shutting_down c3 = false → EvScan = EvScan)) as Hscan.
  { intros pre' e k1 k2 c3 Heq.
    destruct (Hafter _ _ _ _ _ Heq) as [-> Hc]. rewrite ?Hsd2, Hc. done. }
  clear Hafter.
  split_paths pipeline regCheckEntry;
    (split_and!;
     [ repeat (apply always_snoc;
               [|try (intros ? ? ? ? ? Heq;
                      apply snoc_eq_snoc3 in Heq as [Heq ?]; simplify_eq;
                      apply snoc_eq_snoc2 in Heq as [Heq ?]; simplify_eq)]);
       first [exact Hw | exact Hscan]
     | first [ done
             | intros (? & ? & ? & ? & Heq);
               apply snoc_eq_snoc2 in Heq as [_ ?]; simplify_eq ]
     | intros ? ? ? ? ? Heq;
       apply snoc_eq_snoc3 in Heq as [_ ?]; simplify_eq ]).
Qed.


(** ** Properties that every iteration keeps *)

(** A property of the history that holds at the start, that every
    iteration keeps and that the last unlock, made in a memory in which the
    CPU is shutting down, keeps, holds of the history of every run. *)
Lemma run_keeps (Inv : history → Prop) :
  Inv [] →
  (∀ fuel b s,
     Inv (trace s) →
     Inv (trace (iteration env pipeline regCheckEntry returnEntry fuel b s).2)) →
  (∀ t c, is_shutting_down c = true →
          Inv t → Inv (t ++ [(EvUnlock PipelineMutex, c)])) →
  ∀ fuel c0, Inv (trace (run env pipeline regCheckEntry returnEntry fuel c0).2).
Proof.
  intros Hnil Hiter Hexit fuel c0. unfold run, AXP_Execution_Box.
  apply (main_loop_rule (λ _ s, Inv (trace s)) (λ s, Inv (trace s))); try done.
  - intros f b c n t Hs _. cbv zeta.
    pose proof (Hiter f b (mkRun (env n c) (S n) t) Hs) as H.
    by destruct (iteration _ _ _ _ _ _ _).1.
  - intros b c n t Hs Hsd. by apply Hexit.
Qed.

(** ** The locks *)

Lemma scan_and_process_disciplined s :
  disciplined (trace s) →
  holds PipelineMutex (events (trace s)) = true →
  holds RobMutex (events (trace s)) = false →
  holds IBoxIPRMutex (events (trace s)) = false →
  let r := scan_and_process env pipeline regCheckEntry returnEntry s in
  disciplined (trace r.2) ∧
  holds RobMutex (events (trace r.2)) = false ∧
  holds IBoxIPRMutex (events (trace r.2)) = false.
Proof.
  destruct s as [c n t]. cbn [trace]. intros Hs Hp Hr Hi.
  split_paths pipeline regCheckEntry.
  all: rewrite ?events_snoc, ?holds_snoc, ?Hr, ?Hi.
  all: split_and!; try done.
  all: repeat (apply always_snoc;
    [|rewrite ?events_snoc, ?holds_snoc, ?Hp, ?Hr, ?Hi; reflexivity]);
    try done.
Qed.

Lemma iteration_disciplined fuel notMe s :
  disciplined (trace s) ∧
  holds RobMutex (events (trace s)) = false ∧
  holds IBoxIPRMutex (events (trace s)) = false →
  let r := iteration env pipeline regCheckEntry returnEntry fuel notMe s in
  disciplined (trace r.2) ∧
  holds RobMutex (events (trace r.2)) = false ∧
  holds IBoxIPRMutex (events (trace r.2)) = false.
Proof.
  destruct s as [c n t]. cbn [trace]. intros (Hs & Hrob & Hipr).
  cbv [iteration pthread_mutex_lock yield emit mbind M_bind].
  cbn [cpu clock trace].
  destruct (wait_for_work _ _ _ _) as [r s2] eqn:Hwait.
  apply wait_for_work_spec in Hwait as (w & Hw & Hall & _).
  cbn [trace] in Hw.
  assert (holds PipelineMutex (events (trace s2)) = true ∧
          holds RobMutex (events (trace s2)) = false ∧
          holds IBoxIPRMutex (events (trace s2)) = false) as (Hp2 & Hr2 & Hi2).
  { rewrite Hw. split_and!;
      rewrite holds_waits, events_snoc, holds_snoc by done;
      by rewrite ?Hrob, ?Hipr. }
  assert (disciplined (trace s2)) as Hs2.
  { rewrite Hw. apply always_waits_after; [| |done].
    - intros w' c' Hw'.
      by rewrite holds_waits, events_snoc, holds_snoc.
    - apply always_snoc; [done|]. by rewrite Hrob, Hipr. }
  destruct r as [[]|]; cbn [snd]; [|done].
  by apply scan_and_process_disciplined.
Qed.

Lemma run_disciplined fuel c0 :
  disciplined (trace (run env pipeline regCheckEntry returnEntry fuel c0).2).
Proof.
  refine (proj1 (run_keeps
    (λ t, disciplined t ∧
          holds RobMutex (events t) = false ∧
          holds IBoxIPRMutex (events t) = false) _ _ _ fuel c0)).
  - split; [apply always_nil|done].
  - apply iteration_disciplined.
  - intros t c Hsd (Hs & Hr & Hi). split_and!.
    + apply always_snoc; [done|].
      cbn [lock_ok]. rewrite Hsd. apply orb_true_r.
    + by rewrite events_snoc, holds_snoc.
    + by rewrite events_snoc, holds_snoc.
Qed.

(** X5.  In every run the worker never holds two mutexes: whenever it
    takes the pipeline mutex, the ROB mutex or the IPR mutex, it holds
    neither of the other two. *)
Theorem worker_takes_one_mutex_at_a_time (fuel : nat) (c0 : AXP_21264_CPU) :
  one_mutex_at_a_time
    (trace (run env pipeline regCheckEntry returnEntry fuel c0).2).
Proof.
  eapply always_impl; [|apply (run_disciplined fuel c0)].
  intros pre ev c Hok m m' -> Hne. revert Hok.
  destruct m, m'; try done; cbn [lock_ok];
    intros [Ha Hb]%andb_true_iff; by apply negb_true_iff.
Qed.

(** X6.  In every run the worker holds no mutex when it calls
    [regCheckEntry], [AXP_Dispatcher], [AXP_ReturnIQEntry] or
    [returnEntry]. *)
Theorem worker_calls_out_with_no_mutex_held (fuel : nat)
    (c0 : AXP_21264_CPU) :
  callbacks_hold_no_mutex
    (trace (run env pipeline regCheckEntry returnEntry fuel c0).2).
Proof.
  eapply always_impl; [|apply (run_disciplined fuel c0)].
  intros pre ev c Hok Hcall m. revert Hok.
  destruct ev; try discriminate Hcall; cbn [lock_ok];
    intros [[Hp Hr]%andb_true_iff Hi]%andb_true_iff;
    apply negb_true_iff in Hp, Hr, Hi; by destruct m.
Qed.

(** X7.  In every run: the scan, the wait on the condition variable and
    the setting of a claim flag are done with the pipeline mutex held; the
    read of an instruction's state that decides what is done with the
    claimed entry (line 290) and the writes of an instruction's state and
    exception mask are done with the ROB mutex held; [fpe] is read with the
    IPR mutex held.  And the scan is done with the pipeline mutex and no
    other: what its walk reads of the instructions for the trace output,
    their state among it (line 213), it reads without the ROB mutex. *)
Theorem worker_accesses_are_guarded (fuel : nat) (c0 : AXP_21264_CPU) :
  accesses_are_guarded
    (trace (run env pipeline regCheckEntry returnEntry fuel c0).2).
Proof.
  eapply always_impl; [|apply (run_disciplined fuel c0)].
  intros pre ev c Hok. split.
  - intros m Hm. revert Hok.
    destruct ev as [| | | |? []| | | | | | | |]; try discriminate Hm;
      injection Hm as <-; cbn [lock_ok]; try done.
    by intros [[? _]%andb_true_iff _]%andb_true_iff.
  - intros ->. revert Hok. cbn [lock_ok].
    intros [[_ Hr%negb_true_iff]%andb_true_iff Hi%negb_true_iff]%andb_true_iff.
    done.
Qed.

(** X8.  In every run, whenever the worker releases a mutex it holds that
    mutex, with one exception: a release of the pipeline mutex made in a
    memory in which the CPU is shutting down, as the release that ends the
    function is. *)
Theorem worker_unlocks_what_it_holds (fuel : nat) (c0 : AXP_21264_CPU) :
  unlocks_what_it_holds
    (trace (run env pipeline regCheckEntry returnEntry fuel c0).2).
Proof.
  eapply always_impl; [|apply (run_disciplined fuel c0)].
  intros pre ev c Hok m ->. revert Hok.
  destruct m; cbn [lock_ok]; [|by left..].
  intros [?|?]%orb_true_iff; [by left|by right].
Qed.

(** ** The way to the dispatcher *)

(** The stretch of the history that a path of the iteration has added is
    cut off, and its events read off. *)
Lemma scan_and_process_dispatch s :
  dispatch_follows_checks pipeline regCheckEntry (trace s) →
  dispatch_follows_checks pipeline regCheckEntry
    (trace (scan_and_process env pipeline regCheckEntry returnEntry s).2).
Proof.
  destruct s as [c n t]. cbn [trace]. intros Hs.
  split_paths pipeline regCheckEntry;
    repeat (apply always_snoc; [|first [by intros ? [=] | intros ? [= <-]]]);
    try exact Hs.
  all: rewrite <- !app_assoc; cbn [app].
  all: exists t; eexists _, _; split; [reflexivity|].
  all: unfold dispatch_prelude, checked_events.
  all: match goal with H : (_ || _) = _ |- _ => rewrite H end.
  all: cbn [events fmap list_fmap fst app dequeue_events].
  all: split_and!;
    [ first [ reflexivity
            | match goal with H : fpe _ = _ |- _ => rewrite H end;
              reflexivity ]
    | eassumption
    | repeat constructor; cbn [read_of_memory fst snd]; congruence ].
Qed.

Lemma iteration_dispatch fuel notMe s :
  dispatch_follows_checks pipeline regCheckEntry (trace s) →
  dispatch_follows_checks pipeline regCheckEntry
    (trace (iteration env pipeline regCheckEntry returnEntry fuel notMe s).2).
Proof.
  destruct s as [c n t]. cbn [trace]. intros Hs.
  cbv [iteration pthread_mutex_lock yield emit mbind M_bind].
  cbn [cpu clock trace].
  destruct (wait_for_work _ _ _ _) as [r s2] eqn:Hwait.
  apply wait_for_work_spec in Hwait as (w & Hw & Hall & _).
  cbn [trace] in Hw.
  assert (dispatch_follows_checks pipeline regCheckEntry (trace s2)) as Hs2.
  { rewrite Hw. apply always_waits; [by intros ??? [=]| |done].
    apply always_snoc; [done|by intros ? [=]]. }
  destruct r as [[]|]; cbn [snd]; [|done].
  by apply scan_and_process_dispatch.
Qed.

(** X9.  In every run, a call of [AXP_Dispatcher] for an entry comes right
    after, in this order: the scan that claimed the entry and the release
    of the pipeline mutex; the read, under the ROB mutex, of the state of
    its instruction, which is not [Aborted] in the memory the read is made
    in; a register check that answers true in the memory it is called in;
    the removal of the entry under the pipeline mutex; the write of
    [Executing] under the ROB mutex; and, for a floating-point worker, the
    read of [fpe] under the IPR mutex, which is 1 in the memory the read is
    made in. *)
Theorem dispatcher_is_called_after_the_checks (fuel : nat)
    (c0 : AXP_21264_CPU) :
  dispatch_follows_checks pipeline regCheckEntry
    (trace (run env pipeline regCheckEntry returnEntry fuel c0).2).
Proof.
  apply run_keeps.
  - apply always_nil.
  - apply iteration_dispatch.
  - intros t c _ Hs. apply always_snoc; [done|by intros ? [=]].
Qed.

(** ** What the worker writes to instructions *)

Lemma scan_and_process_writes s :
  writes_to_instructions pipeline regCheckEntry (trace s) →
  writes_to_instructions pipeline regCheckEntry
    (trace (scan_and_process env pipeline regCheckEntry returnEntry s).2).
Proof.
  destruct s as [c n t]. cbn [trace]. intros Hs.
  split_paths pipeline regCheckEntry;
    repeat (apply always_snoc;
      [|split; (first [by intros ?? [=] | intros ?? [= <- <-]])]);
    try exact Hs.
  all: lazymatch goal with
       | |- Executing = Executing ∨ _ => left; reflexivity
       | |- WaitingRetirement = Executing ∨ _ =>
           right; split; [reflexivity|];
           eexists; rewrite events_snoc; reflexivity
       | |- _ => idtac
       end.
  all: split; [reflexivity|]; split;
    [ match goal with
      | H : (_ || _) = true |- _ =>
          apply orb_true_iff in H as
            [?%bool_decide_eq_true|?%bool_decide_eq_true]; [by left|by right]
      end
    | ].
  all: rewrite <- !app_assoc; cbn [app].
  all: exists t; eexists _, _, _; split; [reflexivity|].
  all: unfold fault_prelude, checked_events.
  all: cbn [events fmap list_fmap fst app dequeue_events].
  all: split_and!;
    [ reflexivity
    | eassumption
    | eassumption
    | repeat constructor; cbn [read_of_memory fst snd]; congruence ].
Qed.

Lemma iteration_writes fuel notMe s :
  writes_to_instructions pipeline regCheckEntry (trace s) →
  writes_to_instructions pipeline regCheckEntry
    (trace (iteration env pipeline regCheckEntry returnEntry fuel notMe s).2).
Proof.
  destruct s as [c n t]. cbn [trace]. intros Hs.
  cbv [iteration pthread_mutex_lock yield emit mbind M_bind].
  cbn [cpu clock trace].
  destruct (wait_for_work _ _ _ _) as [r s2] eqn:Hwait.
  apply wait_for_work_spec in Hwait as (w & Hw & Hall & _).
  cbn [trace] in Hw.
  assert (writes_to_instructions pipeline regCheckEntry (trace s2)) as Hs2.
  { rewrite Hw. apply always_waits; [by split; intros ?? [=]| |done].
    apply always_snoc; [done|by split; intros ?? [=]]. }
  destruct r as [[]|]; cbn [snd]; [|done].
  by apply scan_and_process_writes.
Qed.

(** X10.  In every run, the only exception the worker writes to an
    instruction is the floating-point disabled fault; only a floating-point
    worker writes it, and only right after it claimed the entry, found its
    instruction not aborted and its registers ready, removed it, marked it
    as executing and read [fpe] under the IPR mutex, [fpe] not being 1 in
    the memory the read is made in.  The only states the worker writes are
    [Executing] and, right after the fault, [WaitingRetirement]. *)
Theorem fault_is_written_only_with_fpe_off (fuel : nat)
    (c0 : AXP_21264_CPU) :
  writes_to_instructions pipeline regCheckEntry
    (trace (run env pipeline regCheckEntry returnEntry fuel c0).2).
Proof.
  apply run_keeps.
  - apply always_nil.
  - apply iteration_writes.
  - intros t c _ Hs. apply always_snoc; [done|by split; intros ?? [=]].
Qed.

(** ** The phases of an entry *)

Lemma scan_and_process_life_cycle s :
  follows_life_cycle returnEntry (trace s) →
  phase (events (trace s)) = NoEntry →
  let r := scan_and_process env pipeline regCheckEntry returnEntry s in
  follows_life_cycle returnEntry (trace r.2) ∧
  phase (events (trace r.2)) = NoEntry.
Proof.
  destruct s as [c n t]. cbn [trace]. intros Hs Hph.
  split_paths pipeline regCheckEntry.
  all: split; [|by rewrite ?events_snoc, ?phase_snoc, ?Hph].
  all: repeat (apply always_snoc;
    [|split;
      [ rewrite ?events_snoc, ?phase_snoc, ?Hph; cbn; eauto
      | first [ by intros ?? [=]
              | intros ?? [= <- <-];
                split; [apply set_processing_frame|auto] ] ] ]);
    try done.
Qed.

Lemma iteration_life_cycle fuel notMe s :
  follows_life_cycle returnEntry (trace s) ∧
  phase (events (trace s)) = NoEntry →
  let r := iteration env pipeline regCheckEntry returnEntry fuel notMe s in
  follows_life_cycle returnEntry (trace r.2) ∧
  phase (events (trace r.2)) = NoEntry.
Proof.
  destruct s as [c n t]. cbn [trace]. intros [Hs Hph].
  cbv [iteration pthread_mutex_lock yield emit mbind M_bind].
  cbn [cpu clock trace].
  destruct (wait_for_work _ _ _ _) as [r s2] eqn:Hwait.
  apply wait_for_work_spec in Hwait as (w & Hw & Hall & _).
  cbn [trace] in Hw.
  assert (phase (events (trace s2)) = NoEntry) as Hph2.
  { by rewrite Hw, phase_waits, events_snoc, phase_snoc. }
  assert (follows_life_cycle returnEntry (trace s2)) as Hs2.
  { rewrite Hw. apply always_waits_after; [| |done].
    - intros w' c' Hw'. split; [|by intros ?? [=]].
      by rewrite phase_waits, events_snoc, phase_snoc.
    - apply always_snoc; [done|]. split; [done|by intros ?? [=]]. }
  destruct r as [[]|]; cbn [snd]; [|done].
  by apply scan_and_process_life_cycle.
Qed.

(** X11.  In every run the worker has at most one entry in hand, and what
    it does after the scan it does to that entry only.  It scans, waits and
    claims with no entry in hand (the walk of the scan reads the tag and the
    claim flag of every entry it passes and, for the trace output, its
    instruction).  The read of the instruction's state that decides what is
    done with the entry (line 290), the register check and the removal from
    the queue are made only for the entry it has claimed; it writes the
    instruction's state or exception mask, reads [fpe] and calls the
    dispatcher only for the entry it has removed; it clears the claim flag
    of the entry in hand only; and it hands an entry back only after having
    removed it and cleared its claim flag, the flag being clear in the
    memory of the call, to [AXP_ReturnIQEntry] or to its [returnEntry]. *)
Theorem worker_follows_the_entry_life_cycle (fuel : nat)
    (c0 : AXP_21264_CPU) :
  follows_life_cycle returnEntry
    (trace (run env pipeline regCheckEntry returnEntry fuel c0).2).
Proof.
  refine (proj1 (run_keeps
    (λ t, follows_life_cycle returnEntry t ∧ phase (events t) = NoEntry)
    _ _ _ fuel c0)).
  - split; [apply always_nil|done].
  - apply iteration_life_cycle.
  - intros t c _ [Hs Hph]. split.
    + apply always_snoc; [done|]. split; [done|by intros ?? [=]].
    + by rewrite events_snoc, phase_snoc.
Qed.

(** ** After a scan that found nothing *)

Lemma iteration_idle fuel notMe s :
  idle_invariant notMe (trace s) →
  let r := iteration env pipeline regCheckEntry returnEntry fuel notMe s in
  match r.1 with
  | Some notMe' => idle_invariant notMe' (trace r.2)
  | None => waits_after_finding_nothing (trace r.2)
  end.
Proof.
  destruct s as [c n t]. cbn [trace]. intros (Hrule & Hidle & Hnot).
  cbv [iteration pthread_mutex_lock yield emit mbind M_bind].
  cbn [cpu clock trace].
  destruct (wait_for_work _ _ _ _) as [r [c2 n2 t2]] eqn:Hwait.
  apply wait_for_work_spec in Hwait as (w & Hw & Hall & Hfirst).
  cbn [trace cpu] in Hw, Hfirst.
  assert (waits_after_finding_nothing t2) as Hrule2.
  { rewrite Hw. apply always_waits; [done| |done].
    apply always_snoc; [done|]. by intros ?%Hnot. }
  destruct r as [[]|]; cbn [fst snd trace]; [|done].
  assert (∃ h x k, t2 = h ++ [(x, k)] ∧
                   (x = EvCondWait ∨
                    x = EvLock PipelineMutex ∧ notMe = false ∧
                    events h = events t))
    as (h & x & k & -> & Hx).
  { destruct w as [|[ev' c'] w _] using rev_ind.
    - rewrite app_nil_r in Hw. eexists _, _, _. split; [done|]. right.
      destruct Hfirst as [_ Hc]; [done|]. unfold wait_condition in Hc.
      by apply orb_false_iff in Hc as [_ ->].
    - rewrite app_assoc in Hw. eexists _, _, _. split; [done|]. left.
      apply Forall_app in Hall as [_ Hlast].
      by rewrite Forall_singleton in Hlast. }
  clear Hw Hall Hfirst Hrule.
  assert (¬ ∃ pre', events (h ++ [(x, k)]) =
                      pre' ++ [EvScan; EvUnlock PipelineMutex;
                               EvLock PipelineMutex]) as Hnot2.
  { intros [pre' Heq]. rewrite events_snoc in Heq.
    apply snoc_eq_snoc3 in Heq as [Heq ->].
    destruct Hx as [|(_ & -> & Hh)]; [done|].
    rewrite Hh in Heq. by specialize (Hidle (ex_intro _ _ Heq)). }
  assert (¬ ∃ pre', events (h ++ [(x, k)]) =
                      pre' ++ [EvScan; EvUnlock PipelineMutex]) as Hnot1.
  { intros [pre' Heq]. rewrite events_snoc in Heq.
    apply snoc_eq_snoc2 in Heq as [_ ->]. by destruct Hx as [|[]]. }
  clear Hx Hidle Hnot.
  set (t2 := h ++ [(x, k)]) in *. clearbody t2.
  split_paths pipeline regCheckEntry;
    (split_and!;
     [ repeat (apply always_snoc;
               [|try (intros [? Heq]; exfalso; rewrite ?events_snoc in Heq;
                      apply snoc_eq_snoc3 in Heq as [Heq ?]; simplify_eq;
                      apply snoc_eq_snoc2 in Heq as [Heq ?]; simplify_eq)]);
       first [exact Hrule2 | by intros ?%Hnot2]
     | first [ done
             | intros [? Heq]; exfalso; rewrite ?events_snoc in Heq;
               apply snoc_eq_snoc2 in Heq as [_ ?]; simplify_eq ]
     | first [ done
             | intros [? Heq]; rewrite ?events_snoc in Heq;
               apply snoc_eq_snoc3 in Heq as [_ ?]; simplify_eq ] ]).
Qed.

(** X13.  In every run, after a scan that found nothing the worker
    releases the pipeline mutex, and once it has taken it again the next
    thing it does is wait on the condition variable, whatever the queue
    then holds: an entry queued in between is not scanned for before a
    wake-up. *)
Theorem worker_waits_after_finding_nothing (fuel : nat)
    (c0 : AXP_21264_CPU) :
  waits_after_finding_nothing
    (trace (run env pipeline regCheckEntry returnEntry fuel c0).2).
Proof.
  unfold run, AXP_Execution_Box.
  apply (main_loop_rule (λ b s, idle_invariant b (trace s))
                        (λ s, waits_after_finding_nothing (trace s))).
  - by intros b s [? _].
  - intros f b c n t Hinv _.
    apply (iteration_idle f b (mkRun (env n c) (S n) t) Hinv).
  - intros b c n t (Hrule & _ & Hnot) _. cbn [trace] in *.
    apply always_snoc; [done|]. by intros ?%Hnot.
  - split_and!; [apply always_nil|done|].
    intros [pre' Heq]. by destruct pre'.
Qed.

(** ** When the worker waits *)

(** The waits of a wait for work: the first is made in the memory the wait
    for work starts in, where the condition of the loop holds with [notMe]
    as given; the others in memories where it holds with [notMe] false. *)
Lemma wait_for_work_waits fuel notMe s r s' :
  wait_for_work env fuel notMe s = (r, s') →
  ∃ w, trace s' = trace s ++ w ∧
       ∀ w1 ev c w2, w = w1 ++ (ev, c) :: w2 →
         ev = EvCondWait ∧
         wait_condition (if w1 is [] then notMe else false) c = true ∧
         (w1 = [] → c = cpu s).
Proof.
  revert notMe s. induction fuel as [|fuel IH]; intros notMe s.
  { intros [= <- <-]. exists []. rewrite app_nil_r. split; [done|].
    intros w1 ???. by destruct w1. }
  cbn [wait_for_work]. destruct s as [c n t].
  cbv [mbind M_bind get_cpu pthread_cond_wait emit yield mret M_ret].
  cbn [cpu clock trace]. fold (wait_condition notMe c).
  destruct (wait_condition notMe c) eqn:Hc.
  - intros (w & Hw & Hall)%IH.
    exists ((EvCondWait, c) :: w). cbn [trace] in Hw.
    rewrite Hw, <- app_assoc. split; [done|].
    intros [|x w1] ev c' w2 Heq; simplify_eq/=; [done|].
    destruct (Hall w1 ev c' w2 eq_refl) as (-> & Hcond & _).
    split_and!; [done| |done]. by destruct w1.
  - intros [= <- <-]. exists []. rewrite app_nil_r. split; [done|].
    intros w1 ???. by destruct w1.
Qed.

Lemma iteration_waits_only_when_idle fuel notMe s :
  waits_only_when_idle (trace s) ∧
  (notMe = true → found_nothing_or_started (events (trace s))) →
  let r := iteration env pipeline regCheckEntry returnEntry fuel notMe s in
  waits_only_when_idle (trace r.2) ∧
  (r.1 = Some true → found_nothing_or_started (events (trace r.2))).
Proof.
  destruct s as [c n t]. cbn [trace]. intros [Hs Hb].
  cbv [iteration pthread_mutex_lock yield emit mbind M_bind].
  cbn [cpu clock trace].
  destruct (wait_for_work _ _ _ _) as [r s2] eqn:Hwait.
  apply wait_for_work_waits in Hwait as (w & Hw & Hall).
  cbn [trace] in Hw.
  assert (waits_only_when_idle (trace s2)) as Hs2.
  { rewrite Hw. apply always_app.
    - apply always_snoc; [done|by intros [=]].
    - intros w1 ev c' w2 Heq _.
      destruct (Hall _ _ _ _ Heq) as (_ & Hcond & _).
      unfold wait_condition in Hcond.
      destruct w1 as [|x w1 _] using rev_ind.
      + destruct notMe.
        * right. rewrite app_nil_r, events_snoc.
          destruct Hb as [->|[pre' ->]]; [done|by left|right].
          exists pre'. by rewrite <- app_assoc.
        * left. by rewrite orb_false_r in Hcond.
      + left. destruct (w1 ++ [x]) eqn:Hnil; [by destruct w1|].
        by rewrite orb_false_r in Hcond. }
  clear Hw Hall Hs Hb.
  destruct r as [[]|]; cbn [fst snd]; [|done].
  destruct s2 as [c2 n2 t2]. cbn [trace] in *.
  split_paths pipeline regCheckEntry;
    (split;
     [ repeat (apply always_snoc; [|by intros [=]]); done
     | first [ done | intros _; right; rewrite !events_snoc;
                      eexists; by rewrite <- app_assoc ] ]).
Qed.

(** X14.  In every run the worker waits on the condition variable only in
    a memory in which the queue is empty and the CPU is not shutting down,
    with two exceptions, in which it waits whatever the memory holds: the
    first wait after the function is entered, and the first wait after a
    scan that found nothing. *)
Theorem worker_waits_only_when_idle (fuel : nat) (c0 : AXP_21264_CPU) :
  waits_only_when_idle
    (trace (run env pipeline regCheckEntry returnEntry fuel c0).2).
Proof.
  unfold run, AXP_Execution_Box.
  apply (main_loop_rule
           (λ b s, waits_only_when_idle (trace s) ∧
                   (b = true → found_nothing_or_started (events (trace s))))
           (λ s, waits_only_when_idle (trace s))).
  - by intros b s [? _].
  - intros f b c n t Hinv _. cbv zeta.
    pose proof (iteration_waits_only_when_idle f b (mkRun (env n c) (S n) t)
                  Hinv) as [H1 H2].
    destruct (iteration _ _ _ _ _ _ _).1 as [b'|]; [|done].
    split; [done|]. intros ->. by apply H2.
  - intros b c n t [Hs _] _. cbn [trace] in *.
    apply always_snoc; [done|by intros [=]].
  - split; [apply always_nil|]. intros _. by left.
Qed.

(** ** The end of the run *)

Section Shutdown.

Variable k : nat.
Hypothesis env_shuts_down : shutting_down_from env k.

Lemma wait_for_work_returns fuel (notMe : bool) s :
  seen_shutdown k s →
  (k + 1 - clock s) + (if notMe then 2 else 1) ≤ fuel →
  let r := wait_for_work env fuel notMe s in
  r.1 = Some () ∧ seen_shutdown k r.2 ∧ clock s ≤ clock r.2.
Proof.
  revert notMe s. induction fuel as [|fuel IH]; intros notMe s Hs Hfuel.
  { destruct notMe; lia. }
  cbn [wait_for_work]. destruct s as [c n t].
  cbv [mbind M_bind get_cpu pthread_cond_wait emit yield mret M_ret
       cpu clock trace].
  cbn [cpu clock trace] in *.
  destruct (_ || notMe) eqn:Hc; [|done].
  assert (seen_shutdown k (mkRun (env n c) (S n) (t ++ [(EvCondWait, c)])))
    as Hs'.
  { intros Hk. apply env_shuts_down. cbn [clock] in Hk. lia. }
  destruct (IH false _ Hs') as (Hr & HJ & Hclock).
  - cbn [clock]. destruct notMe; [lia|].
    rewrite orb_false_r in Hc. apply andb_true_iff in Hc as [_ Hsd].
    destruct (decide (k < n)) as [Hk|Hk]; [|lia].
    unfold seen_shutdown in Hs. cbn [clock cpu] in Hs.
    by rewrite Hs in Hsd.
  - cbv zeta. split_and!; [done..|]. etrans; [|exact Hclock]. cbn [clock]. lia.
Qed.

Lemma scan_and_process_returns s :
  seen_shutdown k s →
  let r := scan_and_process env pipeline regCheckEntry returnEntry s in
  is_Some r.1 ∧ seen_shutdown k r.2 ∧ clock s ≤ clock r.2.
Proof.
  destruct s as [c n t]. intros Hs.
  split_paths pipeline regCheckEntry.
  all: split_and!; [by eexists| |lia].
  all: try done.
  all: unfold seen_shutdown; cbn [cpu clock]; intros Hk.
  all: first [apply env_shuts_down; lia | idtac].
  all: apply (env_shuts_down (S n)); lia.
Qed.

Lemma main_loop_returns fuel notMe s :
  seen_shutdown k s →
  (k + 1 - clock s) + 3 ≤ fuel →
  returned_on_shutdown
    (main_loop env pipeline regCheckEntry returnEntry fuel notMe s).
Proof.
  revert notMe s. induction fuel as [|fuel IH]; intros notMe s Hs Hfuel; [lia|].
  destruct s as [c n t]. cbn [clock] in Hfuel.
  cbn [main_loop]. cbv [mbind mret M_bind M_ret yield get_cpu cpu clock trace].
  destruct (is_shutting_down (env n c)) eqn:Hsd; cbn [negb].
  { split; [done|]. by eexists _, _. }
  assert (n < k) as Hn.
  { destruct (decide (n < k)); [done|].
    rewrite env_shuts_down in Hsd by lia. done. }
  cbv [iteration pthread_mutex_lock yield emit mbind M_bind].
  cbn [cpu clock trace].
  match goal with
  | |- context [wait_for_work env fuel notMe ?s1] =>
      pose proof (wait_for_work_returns fuel notMe s1) as Hwait;
      destruct (wait_for_work env fuel notMe s1) as [r s2]
  end.
  destruct Hwait as (Hr & HJ & Hclock); cbn [clock fst snd] in *.
  - unfold seen_shutdown. cbn [cpu clock]. intros Hk. apply env_shuts_down. lia.
  - destruct notMe; lia.
  - subst r.
    pose proof (scan_and_process_returns s2 HJ) as ([b Hb] & HJ3 & Hclock3).
    destruct (scan_and_process _ _ _ _ s2) as [r3 s3].
    cbn [fst snd] in *. subst r3.
    apply IH; [done|lia].
Qed.

End Shutdown.

(** X15.  The worker stops when the CPU is shut down, as long as its
    waits are woken and the functions it calls return.  If from turn [k] on
    the other threads leave the CPU shutting down, then the run returns for
    every bound on the iterations of at least [k + 4], and the last thing it
    does is release the pipeline mutex, in a memory in which the CPU is
    shutting down. *)
Theorem shutdown_ends_the_run (k fuel : nat) (c0 : AXP_21264_CPU) :
  shutting_down_from env k →
  k + 4 ≤ fuel →
  returned_on_shutdown (run env pipeline regCheckEntry returnEntry fuel c0).
Proof.
  intros Henv Hfuel. unfold run, AXP_Execution_Box.
  apply (main_loop_returns k Henv).
  - unfold seen_shutdown. cbn [clock]. lia.
  - cbn [clock]. lia.
Qed.

Lemma main_loop_returned fuel notMe s s' :
  main_loop env pipeline regCheckEntry returnEntry fuel notMe s = (Some (), s') →
  ∃ pre n c, trace s' = pre ++ [(EvUnlock PipelineMutex, env n c)] ∧
             is_shutting_down (env n c) = true.
Proof.
  revert notMe s. induction fuel as [|fuel IH]; intros notMe s; [done|].
  destruct s as [c n t].
  cbn [main_loop]. cbv [mbind mret M_bind M_ret yield get_cpu cpu clock trace].
  destruct (is_shutting_down (env n c)) eqn:Hsd; cbn [negb].
  - cbv [pthread_mutex_unlock emit cpu clock trace].
    intros [= <-]. by eexists _, _, _.
  - destruct (iteration _ _ _ _ _ _ _) as [[b|] s1]; [apply IH|done].
Qed.

(** X16.  The worker returns only on shutdown: if a run returns, the last
    thing it did was release the pipeline mutex, and it did so in a memory,
    left by a turn of the other threads, in which the CPU is shutting
    down. *)
Theorem worker_returns_only_on_shutdown (fuel : nat) (c0 : AXP_21264_CPU) :
  let r := run env pipeline regCheckEntry returnEntry fuel c0 in
  r.1 = Some () →
  ∃ pre n c, trace r.2 = pre ++ [(EvUnlock PipelineMutex, env n c)] ∧
             is_shutting_down (env n c) = true.
Proof.
  unfold run, AXP_Execution_Box. cbv zeta.
  destruct (main_loop _ _ _ _ _ _ _) as [r s'] eqn:Hrun. cbn [fst snd].
  intros ->. by eapply main_loop_returned.
Qed.

End Runs.

(** * Runs on concrete memories *)

(** C1 (the code at the failing input).  A floating-point multiply worker,
    started with the Fbox's return function, finds the instruction of the
    entry it claimed aborted.  It removes the entry and clears the claim
    flag, and does not call the dispatcher; but the entry goes to
    [AXP_ReturnIQEntry], and the function it was given as [returnEntry] is
    not called at all. *)
Theorem aborted_entry_bypasses_returnEntry :
  let r := run (shutdown_at 5) FboxMul always_ready fbox_return 3 aborted_cpu in
  r.1 = Some () ∧
  events (trace r.2) =
    [EvLock PipelineMutex; EvCondWait; EvScan; EvSetProcessing 10 true;
     EvUnlock PipelineMutex;
     EvLock RobMutex; EvReadInsState 10 Aborted; EvUnlock RobMutex;
     EvRemoveCountedQueue 10; EvSetProcessing 10 false;
     EvReturnEntry AXP_ReturnIQEntry 10;
     EvUnlock PipelineMutex] ∧
  (EvReturnEntry fbox_return 10 ∉ events (trace r.2)) ∧
  (EvDispatcher 10 ∉ events (trace r.2)) ∧
  queue (cpu r.2) = [] ∧
  processing (entries (cpu r.2) !!! 10) = false.
Proof. cbv zeta. split_and!; compute_done. Qed.

(** C2 (the code at the failing input).  On the abort path the entry is
    removed from the queue while the worker does not hold the pipeline
    mutex: it released it after the scan and takes it again only on the
    path that executes the entry.  So not every removal of the run is made
    under the mutex. *)
Theorem abort_path_removes_without_mutex :
  let h := trace (run (shutdown_at 5) EboxU0 always_ready AXP_ReturnIQEntry 3
                      (enqueue 10 20 EboxU0
                         (with_instruction 20 Aborted idle_cpu))).2 in
  let pre := [EvLock PipelineMutex; EvCondWait; EvScan; EvSetProcessing 10 true;
              EvUnlock PipelineMutex;
              EvLock RobMutex; EvReadInsState 10 Aborted; EvUnlock RobMutex] in
  events h = pre ++ EvRemoveCountedQueue 10 ::
                    [EvSetProcessing 10 false;
                     EvReturnEntry AXP_ReturnIQEntry 10;
                     EvUnlock PipelineMutex] ∧
  holds PipelineMutex pre = false ∧
  ¬ removals_under_mutex h.
Proof.
  cbv zeta. split_and!; [compute_done..|].
  intros Hall.
  set (h := trace _) in Hall.
  assert (holds PipelineMutex (events (take 8 h)) = true) as Hheld.
  { assert (h = take 8 h ++
                (EvRemoveCountedQueue 10, (nth 8 h (EvScan, idle_cpu)).2) ::
                drop 9 h)
      as Hsplit by (vm_compute; reflexivity).
    exact (Hall _ _ _ _ Hsplit 10 eq_refl). }
  vm_compute in Hheld. discriminate.
Qed.

(** C9 (the code at the failing inputs).  A worker that finds the CPU
    shutting down when it enters the function never takes the pipeline
    mutex, and still unlocks it before it returns.  The same holds when the
    shutdown is seen by the test of the outer loop after an iteration that
    ended on the abort path, on a register stall, or with the return of an
    executed entry: each of them has released the mutex already. *)
Theorem shutdown_unlocks_a_mutex_not_held :
  ¬ final_unlock_balanced
      (run quiet EboxU0 always_ready AXP_ReturnIQEntry 1 (shut_down idle_cpu)) ∧
  ¬ final_unlock_balanced
      (run (shutdown_at 5) FboxMul always_ready fbox_return 3 aborted_cpu) ∧
  ¬ final_unlock_balanced
      (run (shutdown_at 5) EboxU0 never_ready AXP_ReturnIQEntry 3 queued_cpu) ∧
  ¬ final_unlock_balanced
      (run (shutdown_at 8) EboxU0 always_ready AXP_ReturnIQEntry 3 queued_cpu) ∧
  events (trace (run quiet EboxU0 always_ready AXP_ReturnIQEntry 1
                     (shut_down idle_cpu)).2)
  = [EvUnlock PipelineMutex].
Proof.
  split_and!; [..|compute_done];
    (intros Hbal; destruct Hbal as (pre & Heq & Hheld); [compute_done|];
     vm_compute in Heq;
     match type of Heq with
     | ?l = _ => rewrite <- (take_drop (pred (length l)) l) in Heq
     end;
     cbn [length pred take drop] in Heq;
     apply app_inj_tail in Heq as [<- _];
     vm_compute in Hheld; discriminate).
Qed.

(** When the shutdown is seen inside the iteration, at line 172, the worker
    still holds the mutex it took at the top of the iteration, and the
    final unlock releases it. *)
Example shutdown_seen_under_the_mutex :
  final_unlock_balanced
    (run (shutdown_at 2) EboxU0 always_ready AXP_ReturnIQEntry 3 queued_cpu).
Proof.
  intros _. exists [EvLock PipelineMutex; EvCondWait]. split; compute_done.
Qed.


(** * The theorems at concrete inputs *)

(** The worker U0 passes over the entry for L0 and claims the one for
    U0U1. *)
Lemma scan_claims_only_compatible_witness :
  is_worker EboxU0 = true ∧
  scan EboxU0 two_entries [11; 10] = Some 10 ∧
  pipeline_tag (two_entries !!! 10) ∈ compatibility_row EboxU0.
Proof.
  split; [reflexivity|]. split; [compute_done|].
  destruct (scan_claims_only_compatible EboxU0 two_entries [11; 10] eq_refl)
    as (Hclaim & _ & _).
  apply (Hclaim 10). compute_done.
Defined.

(** The multiply worker with [fpe] at 0: no dispatch, a fault. *)
Lemma floating_point_enable_check_witness :
  (FboxMul = FboxMul ∨ FboxMul = FboxOther) ∧
  fpe fp_disabled_cpu = 0%Z ∧
  EvSetExcRegMask 10 FloatingDisabledFault ∈
    events (since (claimed fp_disabled_cpu)
              (execute_entry quiet FboxMul fbox_return 10
                 (claimed fp_disabled_cpu)).2) ∧
  ∃ c,
    since (claimed fp_disabled_cpu)
      (execute_entry quiet FboxMul fbox_return 10
         (claimed fp_disabled_cpu)).2 !! 7 = Some (EvReadFpe (fpe c), c) ∧
    events (since (claimed fp_disabled_cpu)
              (execute_entry quiet FboxMul fbox_return 10
                 (claimed fp_disabled_cpu)).2) =
      [EvLock PipelineMutex; EvRemoveCountedQueue 10;
       EvUnlock PipelineMutex;
       EvLock RobMutex; EvSetInsState 10 Executing; EvUnlock RobMutex] ++
      [EvLock IBoxIPRMutex; EvReadFpe (fpe c); EvUnlock IBoxIPRMutex] ++
      (if decide (fpe c = 1%Z)
       then [EvDispatcher 10]
       else [EvLock RobMutex; EvSetExcRegMask 10 FloatingDisabledFault;
             EvSetInsState 10 WaitingRetirement; EvUnlock RobMutex]) ++
      [EvSetProcessing 10 false; EvReturnEntry fbox_return 10].
Proof.
  split; [by left|]. split; [reflexivity|]. split; [compute_done|].
  destruct (floating_point_enable_check quiet FboxMul fbox_return 10
              (claimed fp_disabled_cpu)) as (_ & Hfp & _).
  destruct (Hfp (or_introl eq_refl)) as (c & _ & Hread & Hev & _).
  exists c. split; [exact Hread|exact Hev].
Defined.

(** The worker U0 with registers that are not ready. *)
Lemma register_stall_witness :
  EvRegCheck 10 false ∈
    events (since (claimed queued_cpu)
              (process_entry quiet EboxU0 never_ready AXP_ReturnIQEntry 10
                 (claimed queued_cpu)).2) ∧
  (process_entry quiet EboxU0 never_ready AXP_ReturnIQEntry 10
     (claimed queued_cpu)).1 = Some ().
Proof.
  assert (EvRegCheck 10 false ∈
            events (since (claimed queued_cpu)
                      (process_entry quiet EboxU0 never_ready AXP_ReturnIQEntry
                         10 (claimed queued_cpu)).2)) as Hstall
    by compute_done.
  split; [exact Hstall|].
  exact (proj1 (register_stall_only_clears_processing
                  quiet EboxU0 never_ready AXP_ReturnIQEntry 10
                  (claimed queued_cpu) Hstall)).
Defined.

(** Quiet threads leave claimed entries alone; the run executes the entry
    at 10. *)
Lemma executing_only_after_removal_witness :
  unlinked_when_executing 10
    (trace (run quiet FboxMul always_ready fbox_return 3 fp_disabled_cpu).2) ∧
  EvSetInsState 10 Executing ∈
    events (trace (run quiet FboxMul always_ready fbox_return 3
                       fp_disabled_cpu).2).
Proof.
  split; [|compute_done].
  apply (executing_only_after_removal quiet FboxMul always_ready fbox_return
           10 3 fp_disabled_cpu).
  - intros n c Hclaim. exact Hclaim.
  - intros n c _ Hout. exact Hout.
Defined.


(** The shutdown is started at turn 2, while the worker U0 waits with an
    entry in the queue. *)
Lemma shutdown_ends_the_run_witness :
  shutting_down_from (shutdown_at 2) 2 ∧
  2 + 4 ≤ 6 ∧
  returned_on_shutdown
    (run (shutdown_at 2) EboxU0 always_ready AXP_ReturnIQEntry 6 queued_cpu).
Proof.
  assert (shutting_down_from (shutdown_at 2) 2) as Henv.
  { intros n c Hn. unfold shutdown_at. by rewrite decide_True. }
  split; [exact Henv|]. split; [lia|].
  apply (shutdown_ends_the_run (shutdown_at 2) EboxU0 always_ready
           AXP_ReturnIQEntry 2 6 queued_cpu Henv).
  lia.
Defined.

(** The multiply worker executes its entry, then sees the shutdown that was
    started at turn 4. *)
Lemma worker_returns_only_on_shutdown_witness :
  (run (shutdown_at 4) FboxMul always_ready fbox_return 9 fp_disabled_cpu).1
    = Some () ∧
  ∃ pre n c,
    trace (run (shutdown_at 4) FboxMul always_ready fbox_return 9
               fp_disabled_cpu).2
      = pre ++ [(EvUnlock PipelineMutex, shutdown_at 4 n c)] ∧
    is_shutting_down (shutdown_at 4 n c) = true.
Proof.
  assert ((run (shutdown_at 4) FboxMul always_ready fbox_return 9
               fp_disabled_cpu).1 = Some ()) as Hret by (vm_compute; reflexivity).
  split; [exact Hret|].
  exact (worker_returns_only_on_shutdown (shutdown_at 4) FboxMul always_ready
           fbox_return 9 fp_disabled_cpu Hret).
Defined.
